(** * cloudflared tunnel subcommands: validation, aggregation and persistence

    A shallow embedding of [cmd/cloudflared/tunnel/subcommands.go].  Go
    strings are byte strings ([string] of [ascii]); maps are [gmap]s; the
    packages the file imports but does not define (crypto/rand, idna,
    encoding/json, yaml, urfave/cli, tunnelstore, the file system) enter as
    explicit interfaces. *)

From Stdlib Require Import ZArith NArith Ascii String DecimalString.
From stdpp Require Import gmap strings list fin_maps sorting.

Local Open Scope string_scope.

(** ** Go's [regexp], restricted to what [nameRegex] uses

    Go matches runes.  The classes of the pattern hold ASCII characters
    only, and neither a byte of a multi-byte rune nor an invalid byte is
    ASCII, so matching byte by byte accepts the same strings. *)

Module Regexp.

(** The operators of [regexp/syntax] that occur in the pattern. A class is
    a list of inclusive byte ranges, as in [syntax.Regexp.Rune]. *)
Inductive re : Type :=
| NoMatch
| EmptyMatch
| CharClass (ranges : list (ascii * ascii))
| Concat (r1 r2 : re)
| Alternate (r1 r2 : re)
| Star (r : re).

(** A compiled pattern: the body and whether it starts with [^] and ends
    with [$] (no [m] flag: begin and end of text). *)
Record Regexp : Type := MustCompile
  { begin_text : bool; body : re; end_text : bool }.

Definition in_range (c : ascii) (r : ascii * ascii) : bool :=
  (N_of_ascii (fst r) <=? N_of_ascii c)%N && (N_of_ascii c <=? N_of_ascii (snd r))%N.

Definition in_class (c : ascii) (ranges : list (ascii * ascii)) : bool :=
  existsb (in_range c) ranges.

Fixpoint nullable (r : re) : bool :=
  match r with
  | NoMatch => false
  | EmptyMatch => true
  | CharClass _ => false
  | Concat r1 r2 => nullable r1 && nullable r2
  | Alternate r1 r2 => nullable r1 || nullable r2
  | Star _ => true
  end.

Fixpoint deriv (c : ascii) (r : re) : re :=
  match r with
  | NoMatch => NoMatch
  | EmptyMatch => NoMatch
  | CharClass rs => if in_class c rs then EmptyMatch else NoMatch
  | Concat r1 r2 =>
      if nullable r1
      then Alternate (Concat (deriv c r1) r2) (deriv c r2)
      else Concat (deriv c r1) r2
  | Alternate r1 r2 => Alternate (deriv c r1) (deriv c r2)
  | Star r1 => Concat (deriv c r1) (Star r1)
  end.

(** Whole-text match of a body. *)
Fixpoint full_match (r : re) (s : list ascii) : bool :=
  match s with
  | [] => nullable r
  | c :: s' => full_match (deriv c r) s'
  end.

Definition any_byte : re := CharClass [(ascii_of_N 0, ascii_of_N 255)].

(** [MatchString] reports whether the text contains a match: an
    unanchored side may skip any bytes. *)
Definition MatchString (p : Regexp) (s : string) : bool :=
  let left := if begin_text p then EmptyMatch else Star any_byte in
  let right := if end_text p then EmptyMatch else Star any_byte in
  full_match (Concat left (Concat (body p) right)) (list_ascii_of_string s).

(** The language of a body, for stating what the matcher decides. *)
Inductive matches : re -> list ascii -> Prop :=
| m_empty : matches EmptyMatch []
| m_class c rs : in_class c rs = true -> matches (CharClass rs) [c]
| m_concat r1 r2 s1 s2 :
    matches r1 s1 -> matches r2 s2 -> matches (Concat r1 r2) (s1 ++ s2)
| m_alt_l r1 r2 s : matches r1 s -> matches (Alternate r1 r2) s
| m_alt_r r1 r2 s : matches r2 s -> matches (Alternate r1 r2) s
| m_star_nil r : matches (Star r) []
| m_star_app r s1 s2 :
    matches r s1 -> matches (Star r) s2 -> matches (Star r) (s1 ++ s2).

End Regexp.

(** ** NameValidator *)

(** [var nameRegex = regexp.MustCompile("^[_a-zA-Z0-9][-_.a-zA-Z0-9]*$")] *)
Definition nameRegex : Regexp.Regexp :=
  Regexp.MustCompile true
    (Regexp.Concat
       (Regexp.CharClass
          [("_", "_"); ("a", "z"); ("A", "Z"); ("0", "9")]%char)
       (Regexp.Star
          (Regexp.CharClass
             [("-", "-"); ("_", "_"); (".", "."); ("a", "z"); ("A", "Z");
              ("0", "9")]%char)))
    true.

Definition validateName (s : string) : bool :=
  Regexp.MatchString nameRegex s.

(** The two character sets in the words of the documentation: alphanumeric or
    underscore; alphanumeric, underscore, dot or hyphen. *)
Definition is_alnum (c : ascii) : bool :=
  let n := N_of_ascii c in
  ((97 <=? n) && (n <=? 122) || (65 <=? n) && (n <=? 90)
   || (48 <=? n) && (n <=? 57))%N.

Definition name_start_char (c : ascii) : bool :=
  is_alnum c || Ascii.eqb c "_".

Definition name_char (c : ascii) : bool :=
  is_alnum c || Ascii.eqb c "_" || Ascii.eqb c "." || Ascii.eqb c "-".

(** The shape of a valid name, on the bytes of the string. *)
Definition name_shape (s : string) : bool :=
  match s with
  | EmptyString => false
  | String c rest =>
      name_start_char c && forallb name_char (list_ascii_of_string rest)
  end.


(** ** Errors

    [cliutil.UsageError] builds a value of its own type (the command's help
    is printed for it); [errors.Errorf] and [errors.Wrap] build plain
    errors; [foreign] stands for an error value of an imported package. *)
Inductive error : Type :=
| usageError (msg : string)
| errorString (msg : string)
| withMessage (cause : error) (msg : string)
| foreign (pkg msg : string).

Module cliutil.
Definition UsageError (msg : string) : error := usageError msg.
End cliutil.

Module errors.
Definition Errorf (msg : string) : error := errorString msg.
(** [errors.Wrap] and [errors.Wrapf] of an error that is not nil. *)
Definition Wrap (err : error) (msg : string) : error := withMessage err msg.
Definition Wrapf (err : error) (msg : string) : error := withMessage err msg.
End errors.

(** [%d] of a non-negative integer. *)
Definition fmt_d (n : N) : string := NilEmpty.string_of_uint (N.to_uint n).

(** ** golang.org/x/net/idna: the profile options the code sets *)

Module idna.

Record labelError : Type := LabelError { label : string; code_ : string }.

Record options : Type := Options
  { validateLabels : bool; verifyDNSLength : bool }.

Definition Option : Type := options -> options.

Definition ValidateLabels (enable : bool) : Option :=
  fun o => {| validateLabels := enable; verifyDNSLength := verifyDNSLength o |}.

Definition VerifyDNSLength (verify : bool) : Option :=
  fun o => {| validateLabels := validateLabels o; verifyDNSLength := verify |}.

(** [idna.New(opts...)]: the options applied in order to the zero value. *)
Definition New (opts : list Option) : options :=
  foldl (fun o f => f o) {| validateLabels := false; verifyDNSLength := false |} opts.

(** The conversion of a profile: the converted string and the error, both
    returned as in Go. *)
Definition Converter : Type := options -> string -> string * option labelError.

(** The pieces of a name between its dots. *)
Fixpoint split_dots (s : string) : list string :=
  match s with
  | EmptyString => [EmptyString]
  | String c s' =>
      if Ascii.eqb c "." then EmptyString :: split_dots s'
      else match split_dots s' with
           | l :: ls => String c l :: ls
           | [] => [String c EmptyString]
           end
  end.

(** The pieces that the package's label iterator visits after the first
    one: it stops at an empty piece after a final dot (the root label), and
    also when all that is left is a single dot, so that an empty piece in
    front of a final dot is passed over as well. *)
Fixpoint visited (ls : list string) : list string :=
  match ls with
  | [] => []
  | l :: rest =>
      match rest with
      | [] => if String.eqb l "" then [] else [l]
      | [l2] =>
          if String.eqb l "" && String.eqb l2 "" then [] else l :: visited rest
      | _ => l :: visited rest
      end
  end.

(** Labels of a name, as the iterator yields them: none for the empty name;
    otherwise the first piece, then the pieces visited after it. *)
Definition labels (s : string) : list string :=
  if String.eqb s "" then []
  else match split_dots s with
       | [] => []
       | l :: rest => l :: visited rest
       end.

(** Length of a name without the root label and its dot. *)
Definition name_length (s : string) : nat :=
  let n := String.length s in
  match String.get (n - 1) s with
  | Some c => if (0 <? n)%nat && Ascii.eqb c "." then n - 1 else n
  | None => n
  end.

(** A name exceeds the DNS length limits (RFC 1035) when a piece between
    its dots is longer than 63 bytes or the name, without the root label and
    its dot, is longer than 253 bytes. *)
Definition exceeds_dns_length (s : string) : bool :=
  existsb (fun l => (63 <? String.length l)%nat) (split_dots s)
  || (253 <? name_length s)%nat.

(** What [VerifyDNSLength(true)] guarantees of a conversion: when it reports
    no error the result does not exceed the DNS length limits. *)
Definition verifies_dns_length (conv : Converter) : Prop :=
  forall o s, verifyDNSLength o = true ->
    snd (conv o s) = None -> exceeds_dns_length (fst (conv o s)) = false.

Definition is_ascii (s : string) : bool :=
  forallb (fun c => (N_of_ascii c <? 128)%N) (list_ascii_of_string s).

Definition first_error (es : list (option labelError)) : option labelError :=
  foldr (fun e acc => match e with Some _ => e | None => acc end) None es.

Definition hyphen34 (l : string) : bool :=
  (4 <? String.length l)%nat
  && match String.get 2 l, String.get 3 l with
     | Some a, Some b => Ascii.eqb a "-" && Ascii.eqb b "-"
     | _, _ => false
     end.

Definition hyphen_ends (l : string) : bool :=
  match String.get 0 l, String.get (String.length l - 1) l with
  | Some a, Some b => Ascii.eqb a "-" || Ascii.eqb b "-"
  | _, _ => false
  end.

Definition validateLabel (o : options) (l : string) : option labelError :=
  if String.eqb l "" then
    if verifyDNSLength o then Some (LabelError l "A4") else None
  else if validateLabels o then
    if hyphen34 l then Some (LabelError l "V2")
    else if hyphen_ends l then Some (LabelError l "V3")
    else None
  else None.

(** Modelled from the spec: [idna.Profile.ToASCII] (package
    golang.org/x/net/idna) is not among the sources.  This converter is the
    conversion on names made of ASCII bytes without an [xn--] label, where
    no mapping and no Punycode step applies: the labels the iterator yields
    are validated (not empty, no hyphen in third and fourth place, none at
    either end) and the DNS length limits are verified; the first error
    found is reported.
    Names with other bytes or with an [xn--] label need the Unicode tables;
    they are reported as errors here and no statement below relies on
    them. *)
Definition ToASCII_ascii : Converter := fun o s =>
  if negb (is_ascii s) || existsb (String.prefix "xn--") (labels s)
  then (s, Some (LabelError s "unsupported"))
  else
    let e0 := if verifyDNSLength o && String.eqb s ""
              then Some (LabelError s "A4") else None in
    let e1 := first_error
                (map (fun l =>
                        if String.eqb l "" then
                          if verifyDNSLength o then Some (LabelError s "A4") else None
                        else validateLabel o l)
                     (labels s)) in
    let e2 := first_error
                (map (fun l =>
                        if verifyDNSLength o
                           && ((String.length l =? 0)%nat
                               || (63 <? String.length l)%nat)
                        then Some (LabelError l "A4") else None)
                     (labels s)) in
    let e3 := if verifyDNSLength o
                 && ((String.length s <? 1)%nat || (253 <? name_length s)%nat)
              then Some (LabelError s "A4") else None in
    (s, first_error [e0; e1; e2; e3]).

End idna.

Section Hostname.
Variable ToASCII : idna.Converter.

Definition validateHostname (s : string) : bool :=
  (* Slightly stricter than PunyCodeProfile *)
  let idnaProfile :=
    idna.New [idna.ValidateLabels true; idna.VerifyDNSLength true] in
  let '(puny, err) := ToASCII idnaProfile s in
  match err with
  | None => validateName puny
  | Some _ => false
  end.
End Hostname.

(** ** Imported types *)

(** [time.Time], as an instant. *)
Definition Time : Type := Z.

Module uuid.
(** [uuid.UUID] is [[16]byte]. *)
Definition UUID : Type := list Byte.byte.
End uuid.

(** github.com/urfave/cli/v2: what the handlers read of a [*cli.Context]. *)
Module cli.

Record Flag : Type := { Name : string; Aliases : list string }.

Definition Names (f : Flag) : list string := Name f :: Aliases f.

Inductive value : Type :=
| boolValue (b : bool)
| stringValue (s : string)
| timestampValue (t : option Time).

(** The flag set holds one entry per flag name and alias; [args] are the
    positional arguments that remain. *)
Record Context : Type := { flagSet : gmap string value; args : list string }.

Definition NArg (c : Context) : nat := length (args c).

(** [c.Args().Get(n)]: the empty string when out of range. *)
Definition Get (c : Context) (n : nat) : string := nth n (args c) "".

(** The typed lookups return the zero value when no flag has that name. *)
Definition Bool (c : Context) (name : string) : bool :=
  match flagSet c !! name with
  | Some (boolValue b) => b
  | _ => false
  end.

Definition String (c : Context) (name : string) : string :=
  match flagSet c !! name with
  | Some (stringValue s) => s
  | _ => ""
  end.

Definition Timestamp (c : Context) (name : string) : option Time :=
  match flagSet c !! name with
  | Some (timestampValue t) => t
  | _ => None
  end.

(** A context parsed for a command holds values under the names and
    aliases of that command's flags only. *)
Definition parsed_for (flags : list Flag) (c : Context) : Prop :=
  forall name, is_Some (flagSet c !! name) -> name ∈ flat_map Names flags.

End cli.

(** github.com/cloudflare/cloudflared/tunnelstore *)
Module tunnelstore.

(** Modelled from the spec: the type declarations of package tunnelstore
    are not among the sources.  A connection has a point of presence and a
    pending-reconnect mark; a route is one of two variants; a filter is an
    ordered collection of predicates, each builder call adding one. *)
Record Connection : Type :=
  { ColoName : string; IsPendingReconnect : bool }.

Inductive Route : Type :=
| DNSRoute (hostname : string)
| LBRoute (lbName lbPool : string).

Definition NewDNSRoute (userHostname : string) : Route := DNSRoute userHostname.
Definition NewLBRoute (lbName lbPool : string) : Route := LBRoute lbName lbPool.

Inductive predicate : Type :=
| notDeleted
| nameIs (name : string)
| existedAt (t : Time)
| tunnelIDIs (id : uuid.UUID).

Definition Filter : Type := list predicate.

Definition NewFilter : Filter := [].
Definition NoDeleted (f : Filter) : Filter := (f ++ [notDeleted])%list.
Definition ByName (name : string) (f : Filter) : Filter := (f ++ [nameIs name])%list.
Definition ByExistedAt (t : Time) (f : Filter) : Filter := (f ++ [existedAt t])%list.
Definition ByTunnelID (id : uuid.UUID) (f : Filter) : Filter := (f ++ [tunnelIDIs id])%list.

Definition is_existedAt (p : predicate) : bool :=
  match p with existedAt _ => true | _ => false end.

Record Tunnel : Type :=
  { ID : uuid.UUID; Name : string; CreatedAt : Time;
    Connections : list Connection }.

End tunnelstore.

(** ** Flags of the list command *)

Definition showDeletedFlag : cli.Flag :=
  {| cli.Name := "show-deleted"; cli.Aliases := ["d"] |}.
Definition listNameFlag : cli.Flag :=
  {| cli.Name := "name"; cli.Aliases := ["n"] |}.
Definition listExistedAtFlag : cli.Flag :=
  {| cli.Name := "when"; cli.Aliases := ["w"] |}.
Definition listIDFlag : cli.Flag :=
  {| cli.Name := "id"; cli.Aliases := ["i"] |}.
Definition showRecentlyDisconnected : cli.Flag :=
  {| cli.Name := "show-recently-disconnected"; cli.Aliases := ["rd"] |}.
Definition outputFormatFlag : cli.Flag :=
  {| cli.Name := "output"; cli.Aliases := ["o"] |}.

(** [buildListCommand().Flags] *)
Definition listCommandFlags : list cli.Flag :=
  [outputFormatFlag; showDeletedFlag; listNameFlag; listExistedAtFlag;
   listIDFlag; showRecentlyDisconnected].

Section ListCommand.
Variable uuid_Parse : string -> uuid.UUID + error.

(** The part of [listCommand] from [tunnelstore.NewFilter()] to its call
    [sc.list(filter)]: the filter handed to the directory service, or the
    error returned before any call is made. *)
Definition listCommand_filter (c : cli.Context) : tunnelstore.Filter + error :=
  let filter := tunnelstore.NewFilter in
  let filter :=
    if negb (cli.Bool c "show-deleted") then tunnelstore.NoDeleted filter
    else filter in
  let filter :=
    let name := cli.String c "name" in
    if negb (String.eqb name "") then tunnelstore.ByName name filter
    else filter in
  let filter :=
    match cli.Timestamp c "time" with
    | Some existedAt => tunnelstore.ByExistedAt existedAt filter
    | None => filter
    end in
  let id := cli.String c "id" in
  if negb (String.eqb id "") then
    match uuid_Parse id with
    | inr err => inr (errors.Wrapf err (id +:+ " is not a valid tunnel ID"))
    | inl tunnelID => inl (tunnelstore.ByTunnelID tunnelID filter)
    end
  else inl filter.
End ListCommand.

(** ** RouteBuilder *)

Section Routes.
Variable ToASCII : idna.Converter.

Definition dnsRouteFromArg (c : cli.Context) : tunnelstore.Route + error :=
  let userHostnameIndex := 2 in
  let expectedNArgs := 3 in
  if negb (cli.NArg c =? expectedNArgs)%nat then
    inr (cliutil.UsageError
           ("Expected " +:+ fmt_d (N.of_nat expectedNArgs) +:+ " arguments, got "
            +:+ fmt_d (N.of_nat (cli.NArg c))))
  else
    let userHostname := cli.Get c userHostnameIndex in
    if String.eqb userHostname "" then
      inr (cliutil.UsageError "The third argument should be the hostname")
    else if negb (validateHostname ToASCII userHostname) then
      inr (errors.Errorf (userHostname +:+ " is not a valid hostname"))
    else inl (tunnelstore.NewDNSRoute userHostname).

Definition lbRouteFromArg (c : cli.Context) : tunnelstore.Route + error :=
  let lbNameIndex := 2 in
  let lbPoolIndex := 3 in
  let expectedNArgs := 4 in
  if negb (cli.NArg c =? expectedNArgs)%nat then
    inr (cliutil.UsageError
           ("Expected " +:+ fmt_d (N.of_nat expectedNArgs) +:+ " arguments, got "
            +:+ fmt_d (N.of_nat (cli.NArg c))))
  else
    let lbName := cli.Get c lbNameIndex in
    if String.eqb lbName "" then
      inr (cliutil.UsageError "The third argument should be the load balancer name")
    else if negb (validateHostname ToASCII lbName) then
      inr (errors.Errorf (lbName +:+ " is not a valid load balancer name"))
    else
      let lbPool := cli.Get c lbPoolIndex in
      if String.eqb lbPool "" then
        inr (cliutil.UsageError "The fourth argument should be the pool name")
      else if negb (validateName lbPool) then
        inr (errors.Errorf (lbPool +:+ " is not a valid pool name"))
      else inl (tunnelstore.NewLBRoute lbName lbPool).
End Routes.

(** The validation errors by the names the documentation gives them. *)
Definition InvalidHostname (hostname : string) : error :=
  errors.Errorf (hostname +:+ " is not a valid hostname").
Definition InvalidLBName (lbName : string) : error :=
  errors.Errorf (lbName +:+ " is not a valid load balancer name").
Definition InvalidPoolName (lbPool : string) : error :=
  errors.Errorf (lbPool +:+ " is not a valid pool name").
Definition UnknownFormat (format : string) : error :=
  errors.Errorf ("Unknown output format '" +:+ format +:+ "'").

(** The context of [route dns TUNNEL HOSTNAME] and of
    [route lb TUNNEL LB-NAME POOL-NAME], with the right number of arguments. *)
Definition dnsArgs (tunnel hostname : string) : cli.Context :=
  {| cli.flagSet := ∅; cli.args := ["dns"; tunnel; hostname] |}.
Definition lbArgs (tunnel lbName poolName : string) : cli.Context :=
  {| cli.flagSet := ∅; cli.args := ["lb"; tunnel; lbName; poolName] |}.

(** ** ConnectionAggregator *)

(** [sort.Strings]: ascending in Go's string order, which compares bytes.
    The order is total and antisymmetric, so the sorted arrangement of a list
    is unique and the algorithm that finds it is immaterial. *)
Definition sort_Strings (x : list string) : list string :=
  merge_sort String.le x.

(** [for k := range m] visits every key of the map once, in an order the
    language leaves open.  A [ranger] is one such choice of order. *)
Definition ranger : Type := gmap string N -> list string.

Definition range_ok (range : ranger) : Prop :=
  forall m, NoDup (range m) /\ forall k, k ∈ range m <-> is_Some (m !! k).

(** The order in which the map happens to be stored is one valid choice. *)
Definition range_stored : ranger := fun m => (map_to_list m).*1.

Section Connections.
(** Width of [uint] on the platform (32 or 64). *)
Variable UintSize : N.
Variable range : ranger.

(** [m[k]++] on a [map[string]uint]: a missing key reads as zero. *)
Definition uint_incr (n : N) : N := ((n + 1) mod 2 ^ UintSize)%N.

Definition countColo (showRecentlyDisconnected : bool)
    (numConnsPerColo : gmap string N) (connection : tunnelstore.Connection)
    : gmap string N :=
  if negb (tunnelstore.IsPendingReconnect connection) || showRecentlyDisconnected
  then <[tunnelstore.ColoName connection :=
           uint_incr (default 0%N (numConnsPerColo !! tunnelstore.ColoName connection))]>
         numConnsPerColo
  else numConnsPerColo.

Definition countConnsPerColo (connections : list tunnelstore.Connection)
    (showRecentlyDisconnected : bool) : gmap string N :=
  foldl (countColo showRecentlyDisconnected) ∅ connections.

Definition fmtColo (numConnsPerColo : gmap string N) (coloName : string) : string :=
  fmt_d (default 0%N (numConnsPerColo !! coloName)) +:+ "x" +:+ coloName.

Definition fmtConnections (connections : list tunnelstore.Connection)
    (showRecentlyDisconnected : bool) : string :=
  (* Count connections per colo *)
  let numConnsPerColo := countConnsPerColo connections showRecentlyDisconnected in
  (* Get sorted list of colos *)
  let sortedColos :=
    foldl (fun acc coloName => (acc ++ [coloName])%list) [] (range numConnsPerColo) in
  let sortedColos := sort_Strings sortedColos in
  (* Map each colo to its frequency, combine into output string. *)
  let output :=
    foldl (fun out coloName => (out ++ [fmtColo numConnsPerColo coloName])%list)
          [] sortedColos in
  String.concat ", " output.
End Connections.

(** The count the documentation describes: the connections of a point of
    presence that are not pending reconnect, or all of them when recently
    disconnected ones are included. *)
Definition counted (includeRecentlyDisconnected : bool)
    (c : tunnelstore.Connection) : bool :=
  negb (tunnelstore.IsPendingReconnect c) || includeRecentlyDisconnected.

Definition pop_count (includeRecentlyDisconnected : bool)
    (connections : list tunnelstore.Connection) (pop : string) : N :=
  N.of_nat
    (length
       (filter (fun c => counted includeRecentlyDisconnected c = true
                         /\ tunnelstore.ColoName c = pop) connections)).

Definition conn (pop : string) (pending : bool) : tunnelstore.Connection :=
  {| tunnelstore.ColoName := pop; tunnelstore.IsPendingReconnect := pending |}.

(** ** OutputRenderer *)

Module json.
(** The indentation settings of a [json.Encoder]. *)
Record Encoder : Type := { indentPrefix : string; indentValue : string }.
Definition NewEncoder : Encoder := {| indentPrefix := ""; indentValue := "" |}.
Definition SetIndent (enc : Encoder) (prefix indent : string) : Encoder :=
  {| indentPrefix := prefix; indentValue := indent |}.
End json.

Section Render.
(** The value rendered, the state of standard output, and the two encoders
    of encoding/json and gopkg.in/yaml.v2 writing to it. *)
Variables V Stdout : Type.
Variable json_Encode : json.Encoder -> V -> Stdout -> Stdout * option error.
Variable yaml_Encode : V -> Stdout -> Stdout * option error.

Definition renderOutput (format : string) (v : V) (stdout : Stdout)
    : Stdout * option error :=
  if String.eqb format "json" then
    let encoder := json.NewEncoder in
    let encoder := json.SetIndent encoder "" "  " in
    json_Encode encoder v stdout
  else if String.eqb format "yaml" then
    yaml_Encode v stdout
  else
    (stdout, Some (errors.Errorf ("Unknown output format '" +:+ format +:+ "'"))).
End Render.

(** ** The list command *)

Definition tab : string := String (ascii_of_nat 9) EmptyString.

Section Listing.
(** The platform and the imported operations: formatting of identifiers and
    times, the subcommand context with its directory client, the encoders,
    the tab writer (the lines given to it are aligned and printed when it is
    flushed) and [fmt.Println]. *)
Variable UintSize : N.
Variable range : ranger.
Variable uuid_Parse : string -> uuid.UUID + error.
Variable uuid_String : uuid.UUID -> string.
Variable Format_RFC3339 : Time -> string.
Variables SC Stdout : Type.
Variable newSubcommandContext : cli.Context -> SC + error.
Variable sc_list : SC -> tunnelstore.Filter -> list tunnelstore.Tunnel + error.
Variable json_Encode :
  json.Encoder -> list tunnelstore.Tunnel -> Stdout -> Stdout * option error.
Variable yaml_Encode : list tunnelstore.Tunnel -> Stdout -> Stdout * option error.
Variable tabwriter_Flush : list string -> Stdout -> Stdout.
Variable Println : string -> Stdout -> Stdout.

Definition fmtAndPrintTunnelList (tunnels : list tunnelstore.Tunnel)
    (showRecentlyDisconnected : bool) (stdout : Stdout) : Stdout :=
  (* Print column headers with tabbed columns *)
  let writer := ["ID" +:+ tab +:+ "NAME" +:+ tab +:+ "CREATED" +:+ tab
                 +:+ "CONNECTIONS" +:+ tab] in
  (* Loop through tunnels, create formatted string for each, and print using
     tabwriter *)
  let writer :=
    foldl (fun writer t =>
             let formattedStr :=
               uuid_String (tunnelstore.ID t) +:+ tab
               +:+ tunnelstore.Name t +:+ tab
               +:+ Format_RFC3339 (tunnelstore.CreatedAt t) +:+ tab
               +:+ fmtConnections UintSize range (tunnelstore.Connections t)
                     showRecentlyDisconnected +:+ tab in
             (writer ++ [formattedStr])%list)
          writer tunnels in
  tabwriter_Flush writer stdout.

Definition listCommand (c : cli.Context) (stdout : Stdout) : Stdout * option error :=
  match newSubcommandContext c with
  | inr err => (stdout, Some err)
  | inl sc =>
      match listCommand_filter uuid_Parse c with
      | inr err => (stdout, Some err)
      | inl filter =>
          match sc_list sc filter with
          | inr err => (stdout, Some err)
          | inl tunnels =>
              let outputFormat := cli.String c (cli.Name outputFormatFlag) in
              if negb (String.eqb outputFormat "") then
                renderOutput _ _ json_Encode yaml_Encode outputFormat tunnels stdout
              else if (0 <? length tunnels)%nat then
                (fmtAndPrintTunnelList tunnels
                   (cli.Bool c "show-recently-disconnected") stdout, None)
              else
                (Println "You have no tunnels, use 'cloudflared tunnel create' to define a new tunnel"
                   stdout, None)
          end
      end
  end.
End Listing.

(** ** SecretGenerator *)

Section SecretGenerator.
(** The state of the system's random source, and its answer when asked for
    [n] bytes: the bytes it supplied and the error, if any. *)
Variable Rand : Type.
Variable source : Rand -> nat -> (list Byte.byte * option error) * Rand.

(** A slice handed to a reader keeps its length: the bytes supplied
    overwrite a prefix of it. *)
Definition copy_into (b data : list Byte.byte) : list Byte.byte :=
  take (length b) (data ++ drop (length data) b)%list.

(** [rand.Read(b)] *)
Definition rand_Read (b : list Byte.byte) (r : Rand)
    : (list Byte.byte * nat * option error) * Rand :=
  let '((data, err), r') := source r (length b) in
  ((copy_into b data, Nat.min (length data) (length b), err), r').

(** generateTunnelSecret as an array of 32 bytes using secure random number
    generator *)
Definition generateTunnelSecret (r : Rand)
    : (list Byte.byte * option error) * Rand :=
  let randomBytes := replicate 32 Byte.x00 in
  let '((randomBytes, _, err), r') := rand_Read randomBytes r in
  ((randomBytes, err), r').
End SecretGenerator.

(** ** CredentialStore *)

Module os.

Record File : Type := { Mode : Z; Data : list Byte.byte }.

(** What can go wrong with a write: the file cannot be opened, or the
    write stops after some bytes. *)
Inductive fault : Type :=
| openFails (e : error)
| writeFails (written : nat) (e : error).

Record FileSystem : Type :=
  { files : gmap string File; umask : Z; faults : string -> option fault }.

(** The nine permission bits, [0777]. *)
Definition ModePerm : Z := 511.

Definition with_file (fs : FileSystem) (name : string) (f : File) : FileSystem :=
  {| files := <[name := f]> (files fs); umask := umask fs; faults := faults fs |}.

(** Opening with [O_WRONLY|O_CREATE|O_TRUNC]: an existing file keeps its
    mode; a new one gets the permission bits asked for, less the umask. *)
Definition open_mode (fs : FileSystem) (name : string) (perm : Z) : Z :=
  match files fs !! name with
  | Some f => Mode f
  | None => Z.land (Z.land perm ModePerm) (Z.lnot (umask fs))
  end.

(** [ioutil.WriteFile(filename, data, perm)] *)
Definition WriteFile (filename : string) (data : list Byte.byte) (perm : Z)
    (fs : FileSystem) : FileSystem * option error :=
  match faults fs filename with
  | Some (openFails e) => (fs, Some e)
  | Some (writeFails n e) =>
      (with_file fs filename
         {| Mode := open_mode fs filename perm; Data := take n data |}, Some e)
  | None =>
      (with_file fs filename
         {| Mode := open_mode fs filename perm; Data := data |}, None)
  end.

End os.

Module pogs.
Record TunnelAuth : Type :=
  { AccountTag : string; TunnelSecret : list Byte.byte }.
End pogs.

(** Permission bits from three octal digits. *)
Definition octal (owner group other : Z) : Z := (owner * 64 + group * 8 + other)%Z.

(** Access that anyone but the owner has under a mode: the group and other
    bits, [0077]. *)
Definition group_other_bits (mode : Z) : Z := Z.land mode (octal 0 7 7).

(** The file system and the lines logged so far. *)
Record World : Type := { fsys : os.FileSystem; logged : list string }.

(** [logger.Infof] *)
Definition Infof (line : string) (w : World) : World :=
  {| fsys := fsys w; logged := (logged w ++ [line])%list |}.

Section CredentialStore.
Variable uuid_String : uuid.UUID -> string.
Variables filepath_Dir filepath_Clean : string -> string.
Variable homedir_Expand : string -> string + error.
Variable json_Marshal : pogs.TunnelAuth -> list Byte.byte + error.

Definition tunnelFilePath (tunnelID : uuid.UUID) (directory : string)
    : string + error :=
  let fileName := uuid_String tunnelID +:+ ".json" in
  let filePath := filepath_Clean (directory +:+ "/" +:+ fileName) in
  homedir_Expand filePath.

Definition writeTunnelCredentials (tunnelID : uuid.UUID)
    (accountID originCertPath : string) (tunnelSecret : list Byte.byte)
    (w : World) : World * option error :=
  let originCertDir := filepath_Dir originCertPath in
  match tunnelFilePath tunnelID originCertDir with
  | inr err => (w, Some err)
  | inl filePath =>
      match json_Marshal {| pogs.AccountTag := accountID;
                            pogs.TunnelSecret := tunnelSecret |} with
      | inr err =>
          (w, Some (errors.Wrap err "Unable to marshal tunnel credentials to JSON"))
      | inl body =>
          let w := Infof ("Writing tunnel credentials to " +:+ filePath
                          +:+ ". cloudflared chose this file based on where your origin certificate was found.") w in
          let w := Infof "Keep this file secret. To revoke these credentials, delete the tunnel." w in
          let '(fs', err) := os.WriteFile filePath body 400 (fsys w) in
          ({| fsys := fs'; logged := logged w |}, err)
      end
  end.
End CredentialStore.

(** The profile [validateHostname] builds. *)
Definition strictProfile : idna.options :=
  idna.New [idna.ValidateLabels true; idna.VerifyDNSLength true].

(** A label of 64 bytes, one more than DNS allows. *)
Definition label64 : string :=
  "aaaaaaaaaaaaaaaaaaaaaaaaaaaaaaaaaaaaaaaaaaaaaaaaaaaaaaaaaaaaaaaa".

(** The load-balancer route constructor as documented: success exactly when
    both names are non-empty and valid names. *)
Definition lbRoute_documented (ToASCII : idna.Converter)
    (tunnel lbName poolName : string) : Prop :=
  (exists r, lbRouteFromArg ToASCII (lbArgs tunnel lbName poolName) = inl r)
  <-> (lbName <> "" /\ validateName lbName = true
       /\ poolName <> "" /\ validateName poolName = true).

(** A context of [list --when 2020-01-01T00:00:00Z]: the timestamp is stored
    under the flag's name and its alias. *)
Definition listWhenContext : cli.Context :=
  {| cli.flagSet :=
       <["when" := cli.timestampValue (Some 1577836800%Z)]>
         (<["w" := cli.timestampValue (Some 1577836800%Z)]> ∅);
     cli.args := [] |}.

(** A world for a first credential write: no file yet, umask [002], no
    faults; and the libraries' answers for one tunnel. *)
Definition freshWorld : World :=
  {| fsys := {| os.files := ∅; os.umask := octal 0 0 2; os.faults := fun _ => None |};
     logged := [] |}.

Definition credPath : string :=
  "/home/user/.cloudflared/6ff42ae2-765d-4adf-8112-31c55c1551ef.json".

Definition writeFresh : World * option error :=
  writeTunnelCredentials
    (fun _ => "6ff42ae2-765d-4adf-8112-31c55c1551ef")
    (fun _ => "/home/user/.cloudflared") (fun p => p) (fun p => inl p)
    (fun _ => inl [])
    [] "account" "/home/user/.cloudflared/cert.pem" (replicate 32 Byte.x00)
    freshWorld.

(** The summary in the words of the documentation: the points of presence
    with a counted connection, each once, in ascending order; each rendered
    as count, [x], name; joined with a comma and a space. *)
Definition active_pops (includeRecentlyDisconnected : bool)
    (connections : list tunnelstore.Connection) : list string :=
  sort_Strings
    (remove_dups
       (tunnelstore.ColoName
          <$> filter (fun c => counted includeRecentlyDisconnected c = true)
                     connections)).

Definition render_pop (includeRecentlyDisconnected : bool)
    (connections : list tunnelstore.Connection) (pop : string) : string :=
  fmt_d (pop_count includeRecentlyDisconnected connections pop) +:+ "x" +:+ pop.

Definition summarize (connections : list tunnelstore.Connection)
    (includeRecentlyDisconnected : bool) : string :=
  String.concat ", "
    (render_pop includeRecentlyDisconnected connections
       <$> active_pops includeRecentlyDisconnected connections).

(** The connections of the documented example. *)
Definition exampleConnections : list tunnelstore.Connection :=
  [conn "LAX" false; conn "LAX" false; conn "JFK" true].

(** Another valid order of visiting a map: the stored order, backwards. *)
Definition range_backwards : ranger := fun m => reverse (range_stored m).

(** ** The other command handlers *)

Definition dquote : string := String (ascii_of_nat 34) EmptyString.

(** [c.Args().First()] and [c.Args().Slice()] *)
Definition cli_First (c : cli.Context) : string := cli.Get c 0.
Definition cli_Slice (c : cli.Context) : list string := cli.args c.

Section Commands.
(** The subcommand context and the operations of its directory client
    (file subcommand_context.go, not among the sources). *)
Variable SC : Type.
Variable newSubcommandContext : cli.Context -> SC + error.
Variable sc_create : SC -> string -> tunnelstore.Tunnel + error.
Variable sc_findID : SC -> string -> uuid.UUID + error.
Variable sc_findIDs : SC -> list string -> list uuid.UUID + error.
Variable sc_delete : SC -> list uuid.UUID -> option error.
Variable sc_run : SC -> uuid.UUID -> option error.
Variable sc_cleanupConnections : SC -> list uuid.UUID -> option error.

Definition createCommand (c : cli.Context) : option error :=
  match newSubcommandContext c with
  | inr err => Some (errors.Wrap err "error setting up logger")
  | inl sc =>
      if negb (cli.NArg c =? 1)%nat then
        Some (cliutil.UsageError
                (dquote +:+ "cloudflared tunnel create" +:+ dquote
                 +:+ " requires exactly 1 argument, the name of tunnel to create."))
      else
        let name := cli_First c in
        match sc_create sc name with
        | inr err => Some (errors.Wrap err "failed to create tunnel")
        | inl _ => None
        end
  end.

Definition deleteCommand (c : cli.Context) : option error :=
  match newSubcommandContext c with
  | inr err => Some err
  | inl sc =>
      if (cli.NArg c <? 1)%nat then
        Some (cliutil.UsageError
                (dquote +:+ "cloudflared tunnel delete" +:+ dquote
                 +:+ " requires at least 1 argument, the ID or name of the tunnel to delete."))
      else
        match sc_findIDs sc (cli_Slice c) with
        | inr err => Some err
        | inl tunnelIDs => sc_delete sc tunnelIDs
        end
  end.

Definition runCommand (c : cli.Context) : option error :=
  match newSubcommandContext c with
  | inr err => Some err
  | inl sc =>
      if negb (cli.NArg c =? 1)%nat then
        Some (cliutil.UsageError
                (dquote +:+ "cloudflared tunnel run" +:+ dquote
                 +:+ " requires exactly 1 argument, the ID or name of the tunnel to run."))
      else
        match sc_findID sc (cli_First c) with
        | inr err => Some (errors.Wrap err "error parsing tunnel ID")
        | inl tunnelID => sc_run sc tunnelID
        end
  end.

Definition cleanupCommand (c : cli.Context) : option error :=
  if (cli.NArg c <? 1)%nat then
    Some (cliutil.UsageError
            (dquote +:+ "cloudflared tunnel cleanup" +:+ dquote
             +:+ " requires at least 1 argument, the IDs of the tunnels to cleanup connections."))
  else
    match newSubcommandContext c with
    | inr err => Some err
    | inl sc =>
        match sc_findIDs sc (cli_Slice c) with
        | inr err => Some err
        | inl tunnelIDs => sc_cleanupConnections sc tunnelIDs
        end
    end.
End Commands.

Section RouteCommand.
(** The converter of the idna profile, the subcommand context with its
    lookup and route submission, the result of a submission with its
    summary, and the context's logger writing to a log. *)
Variable ToASCII : idna.Converter.
Variables SC RouteResult Log : Type.
Variable newSubcommandContext : cli.Context -> SC + error.
Variable sc_findID : SC -> string -> uuid.UUID + error.
Variable sc_route : SC -> uuid.UUID -> tunnelstore.Route -> RouteResult + error.
Variable SuccessSummary : RouteResult -> string.
Variable sc_logger_Infof : SC -> string -> Log -> Log.

Definition routeCommand (c : cli.Context) (log : Log) : Log * option error :=
  if (cli.NArg c <? 2)%nat then
    (log, Some (cliutil.UsageError
                  (dquote +:+ "cloudflared tunnel route" +:+ dquote
                   +:+ " requires the first argument to be the route type(dns or lb), followed by the ID or name of the tunnel")))
  else
    match newSubcommandContext c with
    | inr err => (log, Some err)
    | inl sc =>
        let tunnelIDIndex := 1 in
        let routeType := cli_First c in
        let prepared : (uuid.UUID * tunnelstore.Route) + error :=
          if String.eqb routeType "dns" then
            match sc_findID sc (cli.Get c tunnelIDIndex) with
            | inr err => inr err
            | inl tunnelID =>
                match dnsRouteFromArg ToASCII c with
                | inr err => inr err
                | inl route => inl (tunnelID, route)
                end
            end
          else if String.eqb routeType "lb" then
            match sc_findID sc (cli.Get c tunnelIDIndex) with
            | inr err => inr err
            | inl tunnelID =>
                match lbRouteFromArg ToASCII c with
                | inr err => inr err
                | inl route => inl (tunnelID, route)
                end
            end
          else
            inr (cliutil.UsageError
                   (routeType +:+ " is not a recognized route type. Supported route types are dns and lb")) in
        match prepared with
        | inr err => (log, Some err)
        | inl (tunnelID, route) =>
            match sc_route sc tunnelID route with
            | inr err => (log, Some err)
            | inl res => (sc_logger_Infof sc (SuccessSummary res) log, None)
            end
        end
    end.
End RouteCommand.

Section FilePath.
(** [os.Stat]: the file information, of which the code reads [IsDir], or
    an error. *)
Variable os_Stat : string -> bool + error.

Definition validFilePath (path : string) : bool :=
  match os_Stat path with
  | inr _ => false
  | inl fileStat_IsDir => negb fileStat_IsDir
  end.
End FilePath.

(** A route that passed the checks of its constructor. *)
Definition validated (ToASCII : idna.Converter) (r : tunnelstore.Route) : Prop :=
  match r with
  | tunnelstore.DNSRoute hostname =>
      hostname <> "" /\ validateHostname ToASCII hostname = true
  | tunnelstore.LBRoute lbName lbPool =>
      lbName <> "" /\ validateHostname ToASCII lbName = true
      /\ lbPool <> "" /\ validateName lbPool = true
  end.

(** The sum of the counts held in a map. *)
Definition total_conns (m : gmap string N) : N :=
  map_fold (fun _ n acc => (n + acc)%N) 0%N m.

(** The row of the table for one tunnel. *)
Definition tunnelRow (UintSize : N) (range : ranger)
    (uuid_String : uuid.UUID -> string) (Format_RFC3339 : Time -> string)
    (showRecentlyDisconnected : bool) (t : tunnelstore.Tunnel) : string :=
  uuid_String (tunnelstore.ID t) +:+ tab +:+ tunnelstore.Name t +:+ tab
  +:+ Format_RFC3339 (tunnelstore.CreatedAt t) +:+ tab
  +:+ fmtConnections UintSize range (tunnelstore.Connections t)
        showRecentlyDisconnected +:+ tab.

Definition tableHeader : string :=
  "ID" +:+ tab +:+ "NAME" +:+ tab +:+ "CREATED" +:+ tab +:+ "CONNECTIONS" +:+ tab.

(** A list command run against a service with no tunnels, standard output
    being the lines printed. *)
Definition listNothing (c : cli.Context) : list string * option error :=
  listCommand 64 range_stored
    (fun _ => inr (foreign "uuid" "invalid UUID length"))
    (fun _ => "") (fun _ => "") unit (list string)
    (fun _ => inl tt) (fun _ _ => inl [])
    (fun _ _ out => (out, None)) (fun _ out => (out, None))
    (fun lines out => (out ++ lines)%list)
    (fun line out => (out ++ [line])%list)
    c [].

(** Contexts of [list --output xml] and of [list --id zzz]. *)
Definition listXmlContext : cli.Context :=
  {| cli.flagSet :=
       <["output" := cli.stringValue "xml"]>
         (<["o" := cli.stringValue "xml"]> ∅);
     cli.args := [] |}.

Definition listBadIdContext : cli.Context :=
  {| cli.flagSet :=
       <["id" := cli.stringValue "zzz"]> (<["i" := cli.stringValue "zzz"]> ∅);
     cli.args := [] |}.

(** A world in which the write of the credential file stops after three
    bytes, and the write attempted there with a five-byte body. *)
Definition shortWriteWorld : World :=
  {| fsys := {| os.files := ∅; os.umask := octal 0 2 2;
                os.faults := fun _ => Some (os.writeFails 3 (foreign "os" "no space left on device")) |};
     logged := [] |}.

Definition writeShort : World * option error :=
  writeTunnelCredentials
    (fun _ => "6ff42ae2-765d-4adf-8112-31c55c1551ef")
    (fun _ => "/home/user/.cloudflared") (fun p => p) (fun p => inl p)
    (fun _ => inl [Byte.x7b; Byte.x22; Byte.x41; Byte.x22; Byte.x7d])
    [] "account" "/home/user/.cloudflared/cert.pem" (replicate 32 Byte.x00)
    shortWriteWorld.

(** The two lines logged for a credential file. *)
Definition credentialLogLines (filePath : string) : list string :=
  ["Writing tunnel credentials to " +:+ filePath
   +:+ ". cloudflared chose this file based on where your origin certificate was found.";
   "Keep this file secret. To revoke these credentials, delete the tunnel."].

(** A directory client for a route submission: every lookup finds the
    tunnel; [submitAll] accepts every route, [submitValidated] only routes
    that pass the checks (with the ASCII converter). *)
Definition submitAll (sc : unit) (id : uuid.UUID) (r : tunnelstore.Route)
    : string + error := inl "ok".

Definition submitValidated (sc : unit) (id : uuid.UUID) (r : tunnelstore.Route)
    : string + error :=
  match r with
  | tunnelstore.DNSRoute h =>
      if negb (String.eqb h "") && validateHostname idna.ToASCII_ascii h
      then inl "ok" else inr (foreign "tunnelstore" "bad route")
  | tunnelstore.LBRoute n p =>
      if negb (String.eqb n "") && validateHostname idna.ToASCII_ascii n
         && negb (String.eqb p "") && validateName p
      then inl "ok" else inr (foreign "tunnelstore" "bad route")
  end.

Definition routeWith (submit : unit -> uuid.UUID -> tunnelstore.Route -> string + error)
    (find : unit -> string -> uuid.UUID + error)
    (c : cli.Context) : list string * option error :=
  routeCommand idna.ToASCII_ascii unit string (list string)
    (fun _ => inl tt) find submit (fun summary => summary)
    (fun _ line log => (log ++ [line])%list) c [].

Definition routeArgs (args : list string) : cli.Context :=
  {| cli.flagSet := ∅; cli.args := args |}.

(** * Properties *)

(** ** The matcher decides the language of the pattern *)

Module RegexpFacts.
Import Regexp.

Lemma concat_inv r1 r2 w :
  matches (Concat r1 r2) w ->
  exists s1 s2, w = (s1 ++ s2)%list /\ matches r1 s1 /\ matches r2 s2.
Proof. intros H; inversion H; subst; eauto. Qed.

Lemma empty_inv w : matches EmptyMatch w -> w = [].
Proof. intros H; by inversion H. Qed.

Lemma class_inv rs w :
  matches (CharClass rs) w -> exists c, w = [c] /\ in_class c rs = true.
Proof. intros H; inversion H; subst; eauto. Qed.

Lemma alt_inv r1 r2 w :
  matches (Alternate r1 r2) w -> matches r1 w \/ matches r2 w.
Proof. intros H; inversion H; subst; auto. Qed.

Lemma nullable_matches r : nullable r = true <-> matches r [].
Proof.
  induction r as [| |rs|r1 IH1 r2 IH2|r1 IH1 r2 IH2|r IH]; simpl.
  - split; intros H; [discriminate | inversion H].
  - split; intros H; [constructor | done].
  - split; intros H; [discriminate | inversion H].
  - rewrite andb_true_iff, IH1, IH2. split.
    + intros [H1 H2]. change (@nil ascii) with (@nil ascii ++ [])%list.
      by constructor.
    + intros (s1 & s2 & Heq & H1 & H2)%concat_inv.
      symmetry in Heq. apply app_eq_nil in Heq as [-> ->]. done.
  - rewrite orb_true_iff, IH1, IH2. split.
    + intros [H|H]; [by apply m_alt_l | by apply m_alt_r].
    + apply alt_inv.
  - split; intros H; [constructor | done].
Qed.

(** A non-empty word of a star starts with a non-empty word of its body. *)
Lemma star_cons r c s :
  matches (Star r) (c :: s) ->
  exists s1 s2, s = (s1 ++ s2)%list /\ matches r (c :: s1) /\ matches (Star r) s2.
Proof.
  intros H. remember (Star r) as r' eqn:Hr. remember (c :: s) as w eqn:Hw.
  revert s Hw.
  induction H as [| | | | | |r0 s1 s2 H1 _ H2 IH2]; intros t Hw;
    try discriminate.
  injection Hr as ->.
  destruct s1 as [|c1 s1]; simpl in Hw.
  - by apply IH2.
  - injection Hw as -> <-. by exists s1, s2.
Qed.

Lemma concat_cons r1 r2 c s :
  matches (Concat r1 r2) (c :: s) <->
  (exists s1 s2, s = (s1 ++ s2)%list /\ matches r1 (c :: s1) /\ matches r2 s2)
  \/ (matches r1 [] /\ matches r2 (c :: s)).
Proof.
  split.
  - intros (s1 & s2 & Heq & H1 & H2)%concat_inv.
    destruct s1 as [|c1 s1]; simpl in Heq.
    + right. by subst.
    + injection Heq as -> ->. left. by exists s1, s2.
  - intros [(s1 & s2 & -> & H1 & H2) | [H1 H2]].
    + change (c :: s1 ++ s2)%list with ((c :: s1) ++ s2)%list. by constructor.
    + change (c :: s) with ([] ++ c :: s)%list. by constructor.
Qed.

Lemma deriv_matches c r s : matches (deriv c r) s <-> matches r (c :: s).
Proof.
  revert s. induction r as [| |rs|r1 IH1 r2 IH2|r1 IH1 r2 IH2|r IH];
    intros s; simpl.
  - split; intros H; inversion H.
  - split; intros H; inversion H.
  - destruct (in_class c rs) eqn:Hc; split; intros H.
    + apply empty_inv in H as ->. by constructor.
    + apply class_inv in H as (c' & [= <- ->] & _). constructor.
    + inversion H.
    + apply class_inv in H as (c' & [= <- ->] & H). congruence.
  - assert (Hcat : matches (Concat (deriv c r1) r2) s <->
                   exists s1 s2, s = (s1 ++ s2)%list /\ matches r1 (c :: s1)
                                 /\ matches r2 s2).
    { split.
      - intros (s1 & s2 & -> & H1 & H2)%concat_inv.
        exists s1, s2. split; [done|]. split; [by apply IH1 | done].
      - intros (s1 & s2 & -> & H1 & H2). constructor; [by apply IH1 | done]. }
    rewrite concat_cons. destruct (nullable r1) eqn:Hn.
    + split.
      * intros [H|H]%alt_inv; [left; by apply Hcat | right].
        split; [by apply nullable_matches | by apply IH2].
      * intros [H | [_ H]];
          [apply m_alt_l; by apply Hcat | apply m_alt_r; by apply IH2].
    + rewrite Hcat. split; [by left | intros [H | [H _]]; [done|]].
      apply nullable_matches in H. congruence.
  - split.
    + intros [H|H]%alt_inv; [apply m_alt_l; by apply IH1 | apply m_alt_r; by apply IH2].
    + intros [H|H]%alt_inv; [apply m_alt_l; by apply IH1 | apply m_alt_r; by apply IH2].
  - split.
    + intros (s1 & s2 & -> & H1 & H2)%concat_inv.
      change (c :: s1 ++ s2)%list with ((c :: s1) ++ s2)%list.
      constructor; [by apply IH | done].
    + intros (s1 & s2 & -> & H1 & H2)%star_cons.
      constructor; [by apply IH | done].
Qed.

Lemma full_match_matches r s : full_match r s = true <-> matches r s.
Proof.
  revert r. induction s as [|c s IH]; intros r; simpl.
  - apply nullable_matches.
  - rewrite IH. apply deriv_matches.
Qed.

(** The words of a starred class are the words over the class. *)
Lemma star_class_matches rs s :
  matches (Star (CharClass rs)) s <-> forallb (fun c => in_class c rs) s = true.
Proof.
  split.
  - intros H. remember (Star (CharClass rs)) as r eqn:Hr.
    induction H as [| | | | | |r0 s1 s2 H1 _ H2 IH2]; try discriminate; [done|].
    injection Hr as ->. apply class_inv in H1 as (c & -> & Hc). simpl.
    apply andb_true_iff; split; [done | by apply IH2].
  - induction s as [|c s IH]; simpl; intros H; [constructor|].
    apply andb_true_iff in H as [Hc Hs].
    change (c :: s) with ([c] ++ s)%list.
    constructor; [by constructor | by apply IH].
Qed.

(** With both anchors the pattern must cover the text. *)
Lemma MatchString_anchored b s :
  MatchString (MustCompile true b true) s = true
  <-> matches b (list_ascii_of_string s).
Proof.
  unfold MatchString; simpl. rewrite full_match_matches. split.
  - intros (s1 & s2 & Heq & ->%empty_inv & H2)%concat_inv.
    apply concat_inv in H2 as (s3 & s4 & -> & H3 & ->%empty_inv).
    simpl in Heq. rewrite app_nil_r in Heq. by rewrite Heq.
  - intros H. change (list_ascii_of_string s)
      with ([] ++ list_ascii_of_string s)%list.
    constructor; [constructor|].
    rewrite <- (app_nil_r (list_ascii_of_string s)).
    constructor; [done | constructor].
Qed.
End RegexpFacts.

(** ** NameValidator *)

Lemma name_start_class c :
  Regexp.in_class c [("_", "_"); ("a", "z"); ("A", "Z"); ("0", "9")]%char
  = name_start_char c.
Proof. destruct c as [[] [] [] [] [] [] [] []]; reflexivity. Qed.

Lemma name_class c :
  Regexp.in_class c
    [("-", "-"); ("_", "_"); (".", "."); ("a", "z"); ("A", "Z"); ("0", "9")]%char
  = name_char c.
Proof. destruct c as [[] [] [] [] [] [] [] []]; reflexivity. Qed.

Lemma forallb_name_class t :
  forallb (fun c => Regexp.in_class c
     [("-", "-"); ("_", "_"); (".", "."); ("a", "z"); ("A", "Z"); ("0", "9")]%char) t
  = forallb name_char t.
Proof. induction t as [|c t IH]; cbn [forallb]; [done|]. by rewrite name_class, IH. Qed.

Lemma nameRegex_language w :
  Regexp.matches (Regexp.body nameRegex) w <->
  exists c t, w = c :: t /\ name_start_char c = true
              /\ forallb name_char t = true.
Proof.
  simpl. split.
  - intros (s1 & s2 & -> & H1 & H2)%RegexpFacts.concat_inv.
    apply RegexpFacts.class_inv in H1 as (c & -> & Hc).
    apply RegexpFacts.star_class_matches in H2.
    exists c, s2. rewrite name_start_class in Hc. split; [done|]. split; [done|].
    by rewrite <- forallb_name_class.
  - intros (c & t & -> & Hc & Ht). change (c :: t) with ([c] ++ t)%list.
    constructor.
    + constructor. by rewrite name_start_class.
    + apply RegexpFacts.star_class_matches. by rewrite forallb_name_class.
Qed.

Lemma validateName_shape s : validateName s = name_shape s.
Proof.
  apply eq_true_iff_eq. unfold validateName, nameRegex.
  rewrite RegexpFacts.MatchString_anchored.
  rewrite (nameRegex_language (list_ascii_of_string s)).
  destruct s as [|c rest]; simpl.
  - split; [intros (c & t & [=] & _) | done].
  - rewrite andb_true_iff. split.
    + by intros (c' & t & [= <- <-] & Hc & Ht).
    + intros [Hc Ht]. by exists c, (list_ascii_of_string rest).
Qed.

(** C7: [validateName s] is true if and only if [s] is in the language of
    the regular expression [^[_a-zA-Z0-9][-_.a-zA-Z0-9]*$], that is, if and
    only if [s] has a first character that is alphanumeric or an underscore
    and all further characters are alphanumeric, underscore, dot or hyphen;
    ["abc-123.def"] is valid, ["-bad"] and the empty string are not. *)
Theorem validateName_iff_regex :
  (forall s : string,
      (validateName s = true
       <-> Regexp.matches (Regexp.body nameRegex) (list_ascii_of_string s))
      /\ (validateName s = true
          <-> exists c rest, s = String c rest /\ name_start_char c = true
                /\ forallb name_char (list_ascii_of_string rest) = true))
  /\ validateName "abc-123.def" = true
  /\ validateName "-bad" = false
  /\ validateName "" = false.
Proof.
  split; [|by repeat split].
  intros s. split.
  - unfold validateName, nameRegex. apply RegexpFacts.MatchString_anchored.
  - rewrite validateName_shape. destruct s as [|c rest]; simpl.
    + split; [done | intros (c & rest & [=] & _)].
    + rewrite andb_true_iff. split.
      * intros [Hc Ht]. by exists c, rest.
      * by intros (c' & rest' & [= <- <-] & Hc & Ht).
Qed.

(** ** Hostnames *)

Lemma first_error_None es :
  idna.first_error es = None <-> Forall (fun e => e = None) es.
Proof.
  induction es as [|e es IH]; simpl.
  - split; [constructor | done].
  - destruct e as [e|]; split.
    + discriminate.
    + intros H. by inversion H.
    + intros H. constructor; [done | by apply IH].
    + intros H. inversion H; subst. by apply IH.
Qed.

Lemma visited_or_empty ls l :
  In l ls -> In l (idna.visited ls) \/ l = "".
Proof.
  induction ls as [|x rest IH]; [done|]. intros [<-|Hin].
  - destruct rest as [|l2 [|l3 rest']]; simpl.
    + destruct (String.eqb x "") eqn:Hx; [right; by apply String.eqb_eq | left; by left].
    + destruct (String.eqb x "") eqn:Hx;
        [right; by apply String.eqb_eq | left; simpl; by left].
    + left. by left.
  - destruct (IH Hin) as [Hv|He]; [|by right].
    destruct rest as [|l2 [|l3 rest']]; [done| |].
    + simpl in Hv |- *.
      destruct (String.eqb l2 "") eqn:H2; [done|].
      rewrite andb_false_r. left. by right.
    + left. change (In l (x :: idna.visited (l2 :: l3 :: rest'))). by right.
Qed.

Lemma labels_or_empty s l :
  In l (idna.split_dots s) -> In l (idna.labels s) \/ l = "".
Proof.
  unfold idna.labels. destruct (String.eqb s "") eqn:Hs.
  - apply String.eqb_eq in Hs as ->. simpl. intros [<-|[]]. by right.
  - destruct (idna.split_dots s) as [|x rest]; [done|].
    intros [<-|Hin]; [left; by left|].
    destruct (visited_or_empty rest l Hin) as [Hv|He]; [left; by right | by right].
Qed.

(** The modelled converter keeps the guarantee of [VerifyDNSLength]. *)
Lemma ToASCII_ascii_verifies_dns_length :
  idna.verifies_dns_length idna.ToASCII_ascii.
Proof.
  intros o s Ho. unfold idna.ToASCII_ascii. rewrite Ho.
  destruct (negb (idna.is_ascii s) || existsb (String.prefix "xn--") (idna.labels s));
    cbn [fst snd]; [discriminate|].
  rewrite first_error_None. intros H.
  apply Forall_cons in H as [_ H]. apply Forall_cons in H as [_ H].
  apply Forall_cons in H as [H2 H]. apply Forall_cons in H as [H3 _].
  rewrite first_error_None, Forall_forall in H2.
  rewrite !andb_true_l in H3.
  destruct ((String.length s <? 1)%nat || (253 <? idna.name_length s)%nat) eqn:Hb3;
    [discriminate|].
  apply orb_false_iff in Hb3 as [_ Hb4].
  unfold idna.exceeds_dns_length. rewrite Hb4, orb_false_r.
  apply not_true_is_false. intros (l & Hl & Hlong)%existsb_exists.
  destruct (labels_or_empty s l Hl) as [Hin| ->]; [|done].
  assert (Some (idna.LabelError l "A4") = None) as [=].
  apply H2. apply list_elem_of_In, in_map_iff. exists l.
  rewrite andb_true_l, Hlong, orb_true_r. done.
Qed.

Lemma strictProfile_options :
  idna.validateLabels strictProfile = true /\ idna.verifyDNSLength strictProfile = true.
Proof. by split. Qed.

Lemma validateHostname_unfold ToASCII s :
  validateHostname ToASCII s
  = match snd (ToASCII strictProfile s) with
    | None => validateName (fst (ToASCII strictProfile s))
    | Some _ => false
    end.
Proof.
  unfold validateHostname. fold strictProfile.
  by destruct (ToASCII strictProfile s) as [puny err].
Qed.

(** C6: [validateHostname s] is true exactly when the conversion of [s] to
    its ASCII form under the strict profile (labels validated, DNS length
    verified) reports no error and the converted form satisfies
    [validateName]; any conversion error gives [false]; and, the conversion
    verifying the DNS length limits, so does a converted form that exceeds
    them (a label over 63 bytes or a name over 253). *)
Theorem validateHostname_iff_conversion (ToASCII : idna.Converter) (s : string) :
  idna.validateLabels strictProfile = true
  /\ idna.verifyDNSLength strictProfile = true
  /\ (validateHostname ToASCII s = true
      <-> snd (ToASCII strictProfile s) = None
          /\ validateName (fst (ToASCII strictProfile s)) = true)
  /\ (snd (ToASCII strictProfile s) <> None -> validateHostname ToASCII s = false)
  /\ (idna.verifies_dns_length ToASCII
      -> idna.exceeds_dns_length (fst (ToASCII strictProfile s)) = true
      -> validateHostname ToASCII s = false).
Proof.
  split; [done|]. split; [done|].
  rewrite validateHostname_unfold.
  destruct (snd (ToASCII strictProfile s)) as [e|] eqn:He.
  - split; [split; [done | by intros [[=] _]] |]. by split.
  - split; [split; [done | by intros [_ H]] |]. split; [done|].
    intros Hlen Hbad.
    rewrite (Hlen strictProfile s (proj2 strictProfile_options) He) in Hbad.
    discriminate.
Qed.

Lemma validateHostname_iff_conversion_witness :
  idna.verifies_dns_length idna.ToASCII_ascii
  /\ idna.exceeds_dns_length (fst (idna.ToASCII_ascii strictProfile label64)) = true
  /\ validateHostname idna.ToASCII_ascii label64 = false.
Proof.
  split; [exact ToASCII_ascii_verifies_dns_length|].
  split; [reflexivity|].
  apply (proj2 (proj2 (proj2 (proj2
           (validateHostname_iff_conversion idna.ToASCII_ascii label64))))).
  - exact ToASCII_ascii_verifies_dns_length.
  - reflexivity.
Defined.

(** The iterator passes over an empty label in front of a final dot: such a
    name converts without error, and being made of name characters it is
    accepted; an empty label elsewhere is an error. *)
Example validateHostname_empty_labels :
  validateHostname idna.ToASCII_ascii "b.." = true
  /\ validateHostname idna.ToASCII_ascii "b." = true
  /\ validateHostname idna.ToASCII_ascii "a..b" = false
  /\ validateHostname idna.ToASCII_ascii "." = false
  /\ validateHostname idna.ToASCII_ascii "" = false.
Proof. by repeat split. Qed.

(** ** Routes *)

(** C8, as the code has it: with three arguments, [dnsRouteFromArg] returns
    the DNS route carrying the hostname exactly when the hostname is
    non-empty and [validateHostname] holds; a non-empty hostname that fails
    [validateHostname] is refused with the invalid-hostname error; the empty
    hostname is refused with a usage error. *)
Theorem dnsRouteFromArg_spec (ToASCII : idna.Converter) (tunnel hostname : string) :
  let result := dnsRouteFromArg ToASCII (dnsArgs tunnel hostname) in
  (result = inl (tunnelstore.DNSRoute hostname)
   <-> hostname <> "" /\ validateHostname ToASCII hostname = true)
  /\ (forall r, result = inl r -> r = tunnelstore.DNSRoute hostname)
  /\ (hostname <> "" -> validateHostname ToASCII hostname = false
      -> result = inr (InvalidHostname hostname))
  /\ (hostname = ""
      -> result = inr (cliutil.UsageError "The third argument should be the hostname")).
Proof.
  unfold dnsRouteFromArg, dnsArgs, cli.NArg, cli.Get, tunnelstore.NewDNSRoute;
    simpl.
  destruct (String.eqb hostname "") eqn:He;
    [apply String.eqb_eq in He | apply String.eqb_neq in He].
  - intuition (try congruence; try discriminate).
  - destruct (validateHostname ToASCII hostname) eqn:Hv; simpl;
      intuition (try congruence; try discriminate).
Qed.

(** C3, as the code has it: with four arguments, [lbRouteFromArg] succeeds
    exactly when the load-balancer name is non-empty and satisfies
    [validateHostname] and the pool name is non-empty and satisfies
    [validateName]; a non-empty load-balancer name failing
    [validateHostname] gives the invalid-load-balancer-name error, and, the
    load-balancer name accepted, a non-empty pool name failing
    [validateName] gives the invalid-pool-name error. *)
Theorem lbRouteFromArg_spec (ToASCII : idna.Converter)
    (tunnel lbName poolName : string) :
  let result := lbRouteFromArg ToASCII (lbArgs tunnel lbName poolName) in
  ((exists r, result = inl r)
   <-> lbName <> "" /\ validateHostname ToASCII lbName = true
       /\ poolName <> "" /\ validateName poolName = true)
  /\ (forall r, result = inl r -> r = tunnelstore.LBRoute lbName poolName)
  /\ (lbName <> "" -> validateHostname ToASCII lbName = false
      -> result = inr (InvalidLBName lbName))
  /\ (lbName <> "" -> validateHostname ToASCII lbName = true
      -> poolName <> "" -> validateName poolName = false
      -> result = inr (InvalidPoolName poolName)).
Proof.
  unfold lbRouteFromArg, lbArgs, cli.NArg, cli.Get, tunnelstore.NewLBRoute;
    simpl.
  assert (Hno : forall e : error,
             ~ exists r : tunnelstore.Route, @inr tunnelstore.Route error e = inl r)
    by (intros e [r [=]]).
  destruct (String.eqb lbName "") eqn:He1;
    [apply String.eqb_eq in He1 | apply String.eqb_neq in He1].
  { split; [split; [by intros ?%Hno | by intros [? _]] |].
    intuition (try congruence; try discriminate). }
  destruct (validateHostname ToASCII lbName) eqn:Hv; simpl.
  2:{ split; [split; [by intros ?%Hno | by intros (_ & [=] & _)] |].
      intuition (try congruence; try discriminate). }
  destruct (String.eqb poolName "") eqn:He2;
    [apply String.eqb_eq in He2 | apply String.eqb_neq in He2].
  { split; [split; [by intros ?%Hno | by intros (_ & _ & ? & _)] |].
    intuition (try congruence; try discriminate). }
  destruct (validateName poolName) eqn:Hn; simpl.
  - split; [split; [done | by eexists] |].
    intuition (try congruence; try discriminate).
  - split; [split; [by intros ?%Hno | by intros (_ & _ & _ & [=])] |].
    intuition (try congruence; try discriminate).
Qed.

(** The documented condition fails on the code: a 64-byte name is a valid
    name, yet the route is refused, for the name is checked as a hostname
    and a DNS label holds 63 bytes at most. *)
Lemma lbRoute_documented_fails :
  validateName label64 = true
  /\ lbRouteFromArg idna.ToASCII_ascii (lbArgs "t" label64 "p")
     = inr (InvalidLBName label64)
  /\ ~ lbRoute_documented idna.ToASCII_ascii "t" label64 "p".
Proof.
  split; [reflexivity|]. split; [reflexivity|].
  unfold lbRoute_documented. intros [_ H].
  destruct H as [r Hr]; [by repeat split|].
  vm_compute in Hr. discriminate.
Qed.

(** The empty hostname is refused with a usage error, which is not the
    invalid-hostname error. *)
Lemma dnsRoute_empty_hostname_not_InvalidHostname :
  dnsRouteFromArg idna.ToASCII_ascii (dnsArgs "t" "")
  = inr (usageError "The third argument should be the hostname")
  /\ dnsRouteFromArg idna.ToASCII_ascii (dnsArgs "t" "")
     <> inr (InvalidHostname "").
Proof. split; [reflexivity | discriminate]. Qed.

(** ** The list command's filter *)

Lemma time_not_a_list_flag : "time" ∉ flat_map cli.Names listCommandFlags.
Proof.
  intros H. apply list_elem_of_In in H. simpl in H.
  repeat (destruct H as [H|H]; [discriminate|]). done.
Qed.

Lemma Timestamp_time_nil c :
  cli.parsed_for listCommandFlags c -> cli.Timestamp c "time" = None.
Proof.
  intros Hp. unfold cli.Timestamp.
  destruct (cli.flagSet c !! "time") as [v|] eqn:Hv; [|done].
  exfalso. apply time_not_a_list_flag, Hp. by exists v.
Qed.

(** C2, evaluated on the code: the handler asks for the timestamp of a flag
    named [time], and the list command has no flag of that name (the flag is
    [when], alias [w]); so for every context parsed for the list command,
    whatever was given for [--when], no filter handed to the directory
    service holds an existed-at predicate. *)
Theorem listCommand_filter_never_existedAt
    (uuid_Parse : string -> uuid.UUID + error) (c : cli.Context)
    (f : tunnelstore.Filter)
    (Hparsed : cli.parsed_for listCommandFlags c)
    (Hfilter : listCommand_filter uuid_Parse c = inl f) :
  existsb tunnelstore.is_existedAt f = false
  /\ forall t, tunnelstore.existedAt t ∉ f.
Proof.
  assert (Hex : existsb tunnelstore.is_existedAt f = false).
  { unfold listCommand_filter in Hfilter.
    rewrite (Timestamp_time_nil c Hparsed) in Hfilter.
    unfold tunnelstore.NewFilter, tunnelstore.NoDeleted, tunnelstore.ByName,
      tunnelstore.ByTunnelID in Hfilter.
    destruct (negb (cli.Bool c "show-deleted"));
      destruct (negb (String.eqb (cli.String c "name") ""));
      destruct (negb (String.eqb (cli.String c "id") ""));
      try destruct (uuid_Parse (cli.String c "id"));
      simplify_eq; reflexivity. }
  split; [done|]. intros t Ht.
  assert (existsb tunnelstore.is_existedAt f = true); [|congruence].
  apply existsb_exists. exists (tunnelstore.existedAt t).
  split; [by apply list_elem_of_In | done].
Qed.

Lemma listWhenContext_parsed : cli.parsed_for listCommandFlags listWhenContext.
Proof.
  intros name [v Hv]. unfold listWhenContext in Hv; simpl in Hv.
  apply lookup_insert_Some in Hv as [[<- _]|[_ Hv]]; [set_solver|].
  apply lookup_insert_Some in Hv as [[<- _]|[_ Hv]]; [set_solver|].
  by rewrite lookup_empty in Hv.
Qed.

Lemma listCommand_filter_never_existedAt_witness :
  cli.flagSet listWhenContext !! "when"
  = Some (cli.timestampValue (Some 1577836800%Z))
  /\ listCommand_filter (fun _ => inr (foreign "uuid" "invalid UUID length")) listWhenContext
     = inl [tunnelstore.notDeleted]
  /\ existsb tunnelstore.is_existedAt [tunnelstore.notDeleted] = false
  /\ forall t, tunnelstore.existedAt t ∉ [tunnelstore.notDeleted].
Proof.
  split; [reflexivity|]. split; [reflexivity|].
  apply (listCommand_filter_never_existedAt
           (fun _ => inr (foreign "uuid" "invalid UUID length")) listWhenContext
           [tunnelstore.notDeleted] listWhenContext_parsed).
  reflexivity.
Defined.

(** ** OutputRenderer *)

(** C5: [renderOutput] can succeed only for the formats ["json"] and
    ["yaml"], compared byte for byte; any other format, ["xml"] or ["JSON"]
    for example, returns the unknown-format error and writes nothing; for
    ["json"] the value is encoded by an encoder whose indentation is two
    spaces (and whose prefix is empty). *)
Theorem renderOutput_formats (V Stdout : Type)
    (json_Encode : json.Encoder -> V -> Stdout -> Stdout * option error)
    (yaml_Encode : V -> Stdout -> Stdout * option error)
    (format : string) (v : V) (stdout : Stdout) :
  let render := renderOutput V Stdout json_Encode yaml_Encode in
  (snd (render format v stdout) = None -> format = "json" \/ format = "yaml")
  /\ (format <> "json" -> format <> "yaml"
      -> render format v stdout = (stdout, Some (UnknownFormat format)))
  /\ render "json" v stdout
     = json_Encode {| json.indentPrefix := ""; json.indentValue := "  " |} v stdout
  /\ render "yaml" v stdout = yaml_Encode v stdout
  /\ render "xml" v stdout = (stdout, Some (UnknownFormat "xml"))
  /\ render "JSON" v stdout = (stdout, Some (UnknownFormat "JSON")).
Proof.
  unfold renderOutput, UnknownFormat. simpl. split; [|split; [|done]].
  - destruct (String.eqb format "json") eqn:Hj; [apply String.eqb_eq in Hj; auto|].
    destruct (String.eqb format "yaml") eqn:Hy; [apply String.eqb_eq in Hy; auto|].
    discriminate.
  - intros Hj%String.eqb_neq Hy%String.eqb_neq. by rewrite Hj, Hy.
Qed.

(** ** SecretGenerator *)

Lemma length_copy_into b data : length (copy_into b data) = length b.
Proof.
  unfold copy_into. rewrite length_take, length_app, length_drop. lia.
Qed.

Lemma copy_into_full b data : length data = length b -> copy_into b data = data.
Proof.
  intros H. unfold copy_into. rewrite (drop_ge b) by lia.
  rewrite app_nil_r. apply take_ge. lia.
Qed.

(** C9: whatever the random source answers, [generateTunnelSecret] returns
    32 bytes, and the error it returns is the error of the source: it fails
    exactly when the source fails to supply the bytes; when the source
    supplies 32 bytes these are the secret. *)
Theorem generateTunnelSecret_spec (Rand : Type)
    (source : Rand -> nat -> (list Byte.byte * option error) * Rand) (r : Rand) :
  let secret := fst (fst (generateTunnelSecret Rand source r)) in
  let err := snd (fst (generateTunnelSecret Rand source r)) in
  let supplied := fst (fst (source r 32)) in
  length secret = 32
  /\ err = snd (fst (source r 32))
  /\ (err <> None <-> snd (fst (source r 32)) <> None)
  /\ (length supplied = 32 -> secret = supplied).
Proof.
  unfold generateTunnelSecret, rand_Read. cbv zeta. rewrite length_replicate.
  destruct (source r 32) as [[data e] r']; cbn [fst snd].
  split; [by rewrite length_copy_into, length_replicate|].
  split; [done|]. split; [done|].
  intros H. apply copy_into_full. by rewrite length_replicate.
Qed.

(** ** CredentialStore *)

Lemma perm_400_is_620 : 400%Z = octal 6 2 0.
Proof. reflexivity. Qed.

(** C1, evaluated on the code: the permission handed to [WriteFile] is the
    decimal number 400, which is octal 0620.  When the write succeeds and
    the file did not exist, the credential file has mode 0620 less the
    umask: 0620 under umask 002 (its group may write it), 0600 under umask
    022, and never 0400 unless the umask itself takes the owner's write
    permission away. *)
Theorem writeTunnelCredentials_mode
    (uuid_String : uuid.UUID -> string)
    (filepath_Dir filepath_Clean : string -> string)
    (homedir_Expand : string -> string + error)
    (json_Marshal : pogs.TunnelAuth -> list Byte.byte + error)
    (tunnelID : uuid.UUID) (accountID originCertPath : string)
    (tunnelSecret : list Byte.byte) (w w' : World) (filePath : string)
    (Hpath : tunnelFilePath uuid_String filepath_Clean homedir_Expand tunnelID
               (filepath_Dir originCertPath) = inl filePath)
    (Hnew : os.files (fsys w) !! filePath = None)
    (Hok : writeTunnelCredentials uuid_String filepath_Dir filepath_Clean
             homedir_Expand json_Marshal tunnelID accountID originCertPath
             tunnelSecret w = (w', None)) :
  exists f, os.files (fsys w') !! filePath = Some f
    /\ os.Mode f = Z.land (octal 6 2 0) (Z.lnot (os.umask (fsys w)))
    /\ (os.umask (fsys w) = octal 0 0 2
        -> os.Mode f = octal 6 2 0 /\ group_other_bits (os.Mode f) = octal 0 2 0)
    /\ (os.umask (fsys w) = octal 0 2 2 -> os.Mode f = octal 6 0 0)
    /\ (Z.testbit (os.umask (fsys w)) 7 = false -> os.Mode f <> octal 4 0 0).
Proof.
  unfold writeTunnelCredentials in Hok. rewrite Hpath in Hok.
  destruct (json_Marshal _) as [body|e]; [|discriminate].
  unfold os.WriteFile, Infof in Hok; cbn [fsys logged] in Hok.
  destruct (os.faults (fsys w) filePath) as [[e|n e]|]; try discriminate.
  injection Hok as <-. cbn [fsys os.with_file os.files].
  eexists. split; [apply lookup_insert_eq|]. cbn [os.Mode].
  unfold os.open_mode. rewrite Hnew.
  change (Z.land 400 os.ModePerm) with (octal 6 2 0).
  split; [done|]. split; [by intros ->|]. split; [by intros ->|].
  intros Hbit Heq.
  assert (Hb : Z.testbit (Z.land (octal 6 2 0) (Z.lnot (os.umask (fsys w)))) 7
               = Z.testbit (octal 4 0 0) 7) by (by rewrite Heq).
  rewrite Z.land_spec, Z.lnot_spec, Hbit in Hb by lia. discriminate.
Qed.

Lemma writeTunnelCredentials_mode_witness :
  snd writeFresh = None
  /\ exists f, os.files (fsys (fst writeFresh)) !! credPath = Some f
    /\ os.Mode f = Z.land (octal 6 2 0) (Z.lnot (os.umask (fsys freshWorld)))
    /\ (os.umask (fsys freshWorld) = octal 0 0 2
        -> os.Mode f = octal 6 2 0 /\ group_other_bits (os.Mode f) = octal 0 2 0)
    /\ (os.umask (fsys freshWorld) = octal 0 2 2 -> os.Mode f = octal 6 0 0)
    /\ (Z.testbit (os.umask (fsys freshWorld)) 7 = false
        -> os.Mode f <> octal 4 0 0).
Proof.
  split; [reflexivity|].
  apply (writeTunnelCredentials_mode
           (fun _ => "6ff42ae2-765d-4adf-8112-31c55c1551ef")
           (fun _ => "/home/user/.cloudflared") (fun p => p) (fun p => inl p)
           (fun _ => inl [])
           [] "account" "/home/user/.cloudflared/cert.pem"
           (replicate 32 Byte.x00) freshWorld (fst writeFresh) credPath);
    reflexivity.
Defined.

(** ** ConnectionAggregator *)

Section ConnectionFacts.
Variable UintSize : N.
Implicit Types (connections : list tunnelstore.Connection) (show : bool).

Lemma pop_count_snoc show connections x p :
  pop_count show (connections ++ [x]) p
  = (pop_count show connections p
     + (if decide (counted show x = true /\ tunnelstore.ColoName x = p)
        then 1 else 0))%N.
Proof.
  unfold pop_count. rewrite filter_app, length_app, filter_cons, filter_nil.
  destruct (decide _); simpl; lia.
Qed.

Lemma pop_count_le show connections p :
  (pop_count show connections p <= N.of_nat (length connections))%N.
Proof.
  unfold pop_count.
  pose proof (length_filter
                (fun c => counted show c = true /\ tunnelstore.ColoName c = p)
                connections).
  lia.
Qed.

(** The map after the counting loop: a key for every point of presence
    with a counted connection, holding the count as a [uint]. *)
Lemma countConnsPerColo_lookup connections show p :
  countConnsPerColo UintSize connections show !! p
  = if decide (pop_count show connections p = 0%N) then None
    else Some (pop_count show connections p mod 2 ^ UintSize)%N.
Proof.
  induction connections as [|x connections IH] using rev_ind.
  - unfold countConnsPerColo; simpl. by rewrite lookup_empty.
  - unfold countConnsPerColo in *. rewrite foldl_app; simpl.
    rewrite pop_count_snoc. unfold countColo at 1.
    fold (counted show x). destruct (counted show x) eqn:Hc.
    + destruct (decide (tunnelstore.ColoName x = p)) as [<-|Hne].
      * rewrite lookup_insert_eq, IH.
        destruct (decide (true = true /\ _)) as [_|Hn]; [|exfalso; auto].
        rewrite (decide_False (P := (_ + 1)%N = 0%N)) by lia.
        f_equal. unfold uint_incr.
        destruct (decide (pop_count show connections _ = 0%N)) as [->|Hn]; simpl.
        -- done.
        -- by rewrite N.Div0.add_mod_idemp_l.
      * rewrite lookup_insert_ne by done. rewrite IH.
        destruct (decide (true = true /\ _)) as [[_ ?]|_]; [done|].
        by rewrite N.add_0_r.
    + rewrite IH.
      destruct (decide (false = true /\ _)) as [[? _]|_]; [done|].
      by rewrite N.add_0_r.
Qed.

Lemma countConnsPerColo_default connections show p :
  default 0%N (countConnsPerColo UintSize connections show !! p)
  = (pop_count show connections p mod 2 ^ UintSize)%N.
Proof.
  rewrite countConnsPerColo_lookup.
  destruct (decide _) as [->|]; simpl; [|done].
  symmetry. apply N.Div0.mod_0_l.
Qed.

Lemma pop_count_positive show connections p :
  pop_count show connections p <> 0%N
  <-> p ∈ tunnelstore.ColoName
            <$> filter (fun c => counted show c = true) connections.
Proof.
  unfold pop_count. rewrite list_elem_of_fmap. split.
  - intros H.
    destruct (filter (fun c => counted show c = true /\ tunnelstore.ColoName c = p)
                     connections) as [|c l] eqn:Hf; [done|].
    assert (Hin : c ∈ filter (fun c => counted show c = true
                                        /\ tunnelstore.ColoName c = p) connections)
      by (rewrite Hf; left).
    apply list_elem_of_filter in Hin as [[Hc Hp] Hin].
    exists c. split; [done|]. by apply list_elem_of_filter.
  - intros (c & -> & [Hc Hin]%list_elem_of_filter).
    assert (Hin' : c ∈ filter (fun c' => counted show c' = true
                    /\ tunnelstore.ColoName c' = tunnelstore.ColoName c) connections)
      by (by apply list_elem_of_filter).
    destruct (filter _ connections); [by apply not_elem_of_nil in Hin'|].
    simpl. lia.
Qed.

Lemma pop_count_Permutation show connections connections' p :
  connections ≡ₚ connections' ->
  pop_count show connections p = pop_count show connections' p.
Proof. intros H. unfold pop_count. by rewrite H. Qed.
End ConnectionFacts.

(** Sorting gives the same list for every arrangement of the same keys. *)
Lemma sort_Strings_Permutation l l' : l ≡ₚ l' -> sort_Strings l = sort_Strings l'.
Proof.
  intros H. unfold sort_Strings. apply (Sorted_unique String.le).
  - apply Sorted_merge_sort; apply _.
  - apply Sorted_merge_sort; apply _.
  - by rewrite !merge_sort_Permutation.
Qed.

Lemma sort_Strings_Sorted l : Sorted String.le (sort_Strings l).
Proof. apply Sorted_merge_sort; apply _. Qed.

Lemma sort_Strings_elem l : sort_Strings l ≡ₚ l.
Proof. apply merge_sort_Permutation. Qed.

Lemma range_keys range (m : gmap string N) k :
  range_ok range -> k ∈ range m <-> is_Some (m !! k).
Proof. intros H. apply H. Qed.

Lemma range_stored_ok : range_ok range_stored.
Proof.
  intros m. split; [apply NoDup_fst_map_to_list|].
  intros k. unfold range_stored. rewrite list_elem_of_fmap. split.
  - intros ([k' v] & -> & Hkv). apply elem_of_map_to_list in Hkv. by exists v.
  - intros [v Hv]. exists (k, v). split; [done|]. by apply elem_of_map_to_list.
Qed.

Lemma range_ok_Permutation r1 r2 (m : gmap string N) :
  range_ok r1 -> range_ok r2 -> r1 m ≡ₚ r2 m.
Proof.
  intros H1 H2. apply NoDup_Permutation; [apply H1 | apply H2|].
  intros k. by rewrite (range_keys r1), (range_keys r2).
Qed.

Lemma foldl_snoc_fmap {A B} (f : A -> B) (acc : list B) (l : list A) :
  foldl (fun out x => (out ++ [f x])%list) acc l = (acc ++ (f <$> l))%list.
Proof.
  revert acc. induction l as [|x l IH]; intros acc; simpl.
  - by rewrite app_nil_r.
  - rewrite IH. by rewrite <- app_assoc.
Qed.

(** The function without its loops: the keys sorted, each rendered with its
    count in the map, joined. *)
Lemma fmtConnections_unfold UintSize range connections show :
  fmtConnections UintSize range connections show
  = String.concat ", "
      (fmtColo (countConnsPerColo UintSize connections show)
         <$> sort_Strings (range (countConnsPerColo UintSize connections show))).
Proof.
  unfold fmtConnections. cbv zeta.
  rewrite (foldl_snoc_fmap (fun k : string => k)), app_nil_l, list_fmap_id.
  by rewrite foldl_snoc_fmap, app_nil_l.
Qed.

Lemma keys_active_pops UintSize range connections show :
  range_ok range ->
  sort_Strings (range (countConnsPerColo UintSize connections show))
  = active_pops show connections.
Proof.
  intros Hr. unfold active_pops. apply sort_Strings_Permutation.
  apply NoDup_Permutation; [apply Hr | apply NoDup_remove_dups|].
  intros k. rewrite (range_keys range) by done.
  rewrite elem_of_remove_dups, <- pop_count_positive.
  rewrite countConnsPerColo_lookup. destruct (decide _) as [Hz|Hz].
  - split; [by intros [? [=]] | done].
  - split; [done | by eexists].
Qed.

(** The code computes the documented summary, as long as no count can wrap
    around, which the length of a slice guarantees. *)
Lemma fmtConnections_summarize UintSize range connections show :
  range_ok range ->
  (N.of_nat (length connections) < 2 ^ UintSize)%N ->
  fmtConnections UintSize range connections show = summarize connections show.
Proof.
  intros Hr Hlen. rewrite fmtConnections_unfold, keys_active_pops by done.
  unfold summarize. f_equal. apply list_fmap_ext. intros i p _.
  unfold fmtColo, render_pop. rewrite countConnsPerColo_default.
  rewrite N.mod_small; [done|].
  pose proof (pop_count_le show connections p). lia.
Qed.

Lemma active_pops_spec show connections :
  Sorted String.le (active_pops show connections)
  /\ NoDup (active_pops show connections)
  /\ forall p, p ∈ active_pops show connections
               <-> (0 < pop_count show connections p)%N.
Proof.
  unfold active_pops. split; [apply sort_Strings_Sorted|]. split.
  - rewrite sort_Strings_elem. apply NoDup_remove_dups.
  - intros p. rewrite sort_Strings_elem, elem_of_remove_dups.
    rewrite <- pop_count_positive. lia.
Qed.

Lemma range_backwards_ok : range_ok range_backwards.
Proof.
  intros m. destruct (range_stored_ok m) as [Hnd Hk]. unfold range_backwards.
  split; [by rewrite reverse_Permutation|]. intros k. by rewrite elem_of_reverse.
Qed.

Lemma fmtConnections_none UintSize range connections show :
  range_ok range ->
  filter (fun c => counted show c = true) connections = [] ->
  fmtConnections UintSize range connections show = "".
Proof.
  intros Hr Hnone. rewrite fmtConnections_unfold, keys_active_pops by done.
  unfold active_pops. by rewrite Hnone.
Qed.

(** C4: for every list of connections (a slice: its length fits the
    machine word) and either value of the flag, [fmtConnections] is the
    join with [", "] of the renderings [<count>x<name>] of the points of
    presence that have a non-zero count, in ascending order and each once,
    where the count of a point of presence is the number of its connections
    that are not pending reconnect, or of all its connections when the flag
    is set; no connections, or none that is counted, gives the empty string;
    and the documented example gives ["2xLAX"] without the flag and
    ["1xJFK, 2xLAX"] with it. *)
Theorem fmtConnections_counts_sorted_joined :
  (forall UintSize range connections show,
      range_ok range ->
      (N.of_nat (length connections) < 2 ^ UintSize)%N ->
      exists pops,
        Sorted String.le pops /\ NoDup pops
        /\ (forall p, p ∈ pops <-> (0 < pop_count show connections p)%N)
        /\ fmtConnections UintSize range connections show
           = String.concat ", "
               ((fun p => fmt_d (pop_count show connections p) +:+ "x" +:+ p)
                  <$> pops))
  /\ (forall UintSize range show,
         range_ok range -> fmtConnections UintSize range [] show = "")
  /\ (forall UintSize range connections,
         range_ok range ->
         Forall (fun c => tunnelstore.IsPendingReconnect c = true) connections ->
         fmtConnections UintSize range connections false = "")
  /\ (forall UintSize range,
         range_ok range -> (2 <= UintSize)%N ->
         fmtConnections UintSize range exampleConnections false = "2xLAX"
         /\ fmtConnections UintSize range exampleConnections true = "1xJFK, 2xLAX").
Proof.
  split; [|split; [|split]].
  - intros UintSize range connections show Hr Hlen.
    exists (active_pops show connections).
    destruct (active_pops_spec show connections) as (Hs & Hnd & Hin).
    split; [done|]. split; [done|]. split; [done|].
    by apply fmtConnections_summarize.
  - intros UintSize range show Hr. by apply fmtConnections_none.
  - intros UintSize range connections Hr Hall. apply fmtConnections_none; [done|].
    induction Hall as [|c l Hc _ IH]; [done|].
    rewrite filter_cons, IH. unfold counted. rewrite Hc.
    by destruct (decide _) as [[=]|].
  - intros UintSize range Hr Hw.
    assert (Hlen : (N.of_nat (length exampleConnections) < 2 ^ UintSize)%N).
    { apply N.lt_le_trans with (2 ^ 2)%N; [done|].
      apply N.pow_le_mono_r; [done | done]. }
    rewrite !fmtConnections_summarize by done. by split.
Qed.

Lemma fmtConnections_counts_sorted_joined_witness :
  exists pops,
    Sorted String.le pops /\ NoDup pops
    /\ (forall p, p ∈ pops <-> (0 < pop_count true exampleConnections p)%N)
    /\ fmtConnections 64 range_stored exampleConnections true
       = String.concat ", "
           ((fun p => fmt_d (pop_count true exampleConnections p) +:+ "x" +:+ p)
              <$> pops).
Proof.
  apply (proj1 fmtConnections_counts_sorted_joined 64%N range_stored
           exampleConnections true range_stored_ok).
  reflexivity.
Defined.

(** C10: [fmtConnections] gives the same string on a list of connections
    and on any permutation of it, for either value of the flag and whatever
    the order in which the map is visited in the two calls. *)
Theorem fmtConnections_Permutation (UintSize : N) (range range' : ranger)
    (connections connections' : list tunnelstore.Connection) (show : bool)
    (Hr : range_ok range) (Hr' : range_ok range')
    (Hperm : connections ≡ₚ connections') :
  fmtConnections UintSize range connections show
  = fmtConnections UintSize range' connections' show.
Proof.
  rewrite !fmtConnections_unfold.
  assert (Hm : countConnsPerColo UintSize connections show
               = countConnsPerColo UintSize connections' show).
  { apply map_eq. intros p. rewrite !countConnsPerColo_lookup.
    by rewrite (pop_count_Permutation show connections connections' p Hperm). }
  rewrite <- Hm. f_equal. f_equal.
  apply sort_Strings_Permutation. by apply range_ok_Permutation.
Qed.

Lemma fmtConnections_Permutation_witness :
  fmtConnections 64 range_stored exampleConnections true
  = fmtConnections 64 range_backwards (reverse exampleConnections) true.
Proof.
  apply (fmtConnections_Permutation 64%N range_stored range_backwards
           exampleConnections (reverse exampleConnections) true
           range_stored_ok range_backwards_ok).
  symmetry. apply reverse_Permutation.
Defined.

(** * Further properties of the code *)

(** ** Names *)

Lemma bytes_app a b :
  list_ascii_of_string (a +:+ b)
  = (list_ascii_of_string a ++ list_ascii_of_string b)%list.
Proof. induction a as [|c a IH]; simpl; [done | by rewrite IH]. Qed.

Lemma name_start_char_name_char c : name_start_char c = true -> name_char c = true.
Proof.
  unfold name_start_char, name_char. intros H.
  apply orb_true_iff in H as [H|H]; rewrite H; simpl;
    [done | by rewrite orb_true_r].
Qed.

Lemma name_char_ascii c :
  name_char c = true ->
  (N_of_ascii c <? 128)%N = true /\ c <> "/"%char /\ c <> " "%char.
Proof. destruct c as [[] [] [] [] [] [] [] []]; intros H; by try discriminate H. Qed.

Lemma name_shape_bytes s :
  name_shape s = true ->
  forallb name_char (list_ascii_of_string s) = true.
Proof.
  destruct s as [|c rest]; simpl; [done|].
  intros [Hc Hr]%andb_true_iff. by rewrite (name_start_char_name_char c Hc).
Qed.

Lemma name_shape_app a b :
  name_shape a = true ->
  forallb name_char (list_ascii_of_string b) = true ->
  name_shape (a +:+ b) = true.
Proof.
  destruct a as [|c a]; simpl; [done|].
  intros [Hc Ha]%andb_true_iff Hb. rewrite Hc, bytes_app, forallb_app, Ha, Hb. done.
Qed.

(** Valid names can be joined: the concatenation of two valid names is a
    valid name, and so is their junction with a dot, a hyphen or an
    underscore. *)
Theorem validateName_join (a b : string)
    (Ha : validateName a = true) (Hb : validateName b = true) :
  validateName (a +:+ b) = true
  /\ validateName (a +:+ "." +:+ b) = true
  /\ validateName (a +:+ "-" +:+ b) = true
  /\ validateName (a +:+ "_" +:+ b) = true.
Proof.
  rewrite !validateName_shape in *.
  pose proof (name_shape_bytes b Hb) as Hbb.
  repeat split; apply name_shape_app; try done; simpl; by rewrite Hbb.
Qed.

Lemma validateName_join_witness :
  validateName ("pool" +:+ "1") = true
  /\ validateName ("pool" +:+ "." +:+ "1") = true
  /\ validateName ("pool" +:+ "-" +:+ "1") = true
  /\ validateName ("pool" +:+ "_" +:+ "1") = true.
Proof. apply (validateName_join "pool" "1"); reflexivity. Defined.

(** A valid name is not empty, every byte of it is an ASCII letter, digit,
    underscore, dot or hyphen (so it holds no slash and no space), and every
    non-empty prefix of it is a valid name. *)
Theorem validateName_bytes_prefix (s : string) (Hs : validateName s = true) :
  s <> ""
  /\ Forall (fun c => name_char c = true /\ (N_of_ascii c < 128)%N
                      /\ c <> "/"%char /\ c <> " "%char)
            (list_ascii_of_string s)
  /\ forall a b, s = a +:+ b -> a <> "" -> validateName a = true.
Proof.
  rewrite validateName_shape in Hs. split; [by intros ->|]. split.
  - apply name_shape_bytes in Hs. rewrite forallb_forall in Hs.
    apply Forall_forall. intros c Hc%list_elem_of_In.
    specialize (Hs c Hc). split; [done|].
    destruct (name_char_ascii c Hs) as (H1 & H2 & H3).
    split; [by apply N.ltb_lt | done].
  - intros a b -> Ha. rewrite validateName_shape.
    destruct a as [|c a]; [done|]. simpl in *.
    apply andb_true_iff in Hs as [Hc Hr]. rewrite Hc. simpl.
    rewrite bytes_app, forallb_app in Hr. by apply andb_true_iff in Hr as [-> _].
Qed.

Lemma validateName_bytes_prefix_witness :
  "abc-123.def" <> ""
  /\ Forall (fun c => name_char c = true /\ (N_of_ascii c < 128)%N
                      /\ c <> "/"%char /\ c <> " "%char)
            (list_ascii_of_string "abc-123.def")
  /\ forall a b, "abc-123.def" = a +:+ b -> a <> "" -> validateName a = true.
Proof. apply (validateName_bytes_prefix "abc-123.def"). reflexivity. Defined.

(** ** Route constructors: argument count *)

(** With any number of arguments other than three, [dnsRouteFromArg]
    returns the usage error that names the expected and the actual count,
    whatever the arguments are; likewise [lbRouteFromArg] with any number
    other than four.  Extra arguments are refused, not ignored. *)
Theorem routeFromArg_argument_count (ToASCII : idna.Converter) (c : cli.Context) :
  (cli.NArg c <> 3 ->
   dnsRouteFromArg ToASCII c
   = inr (usageError ("Expected 3 arguments, got " +:+ fmt_d (N.of_nat (cli.NArg c)))))
  /\ (cli.NArg c <> 4 ->
      lbRouteFromArg ToASCII c
      = inr (usageError ("Expected 4 arguments, got " +:+ fmt_d (N.of_nat (cli.NArg c))))).
Proof.
  unfold dnsRouteFromArg, lbRouteFromArg. split; intros H%Nat.eqb_neq.
  - by rewrite H.
  - by rewrite H.
Qed.

(** ** The list command *)

Lemma listCommand_filter_inr uuid_Parse c e :
  listCommand_filter uuid_Parse c = inr e
  <-> exists e', cli.String c "id" <> ""
        /\ uuid_Parse (cli.String c "id") = inr e'
        /\ e = withMessage e' (cli.String c "id" +:+ " is not a valid tunnel ID").
Proof.
  unfold listCommand_filter.
  destruct (String.eqb (cli.String c "id") "") eqn:Hid; simpl.
  - apply String.eqb_eq in Hid. split; [done | by intros (e' & H & _)].
  - apply String.eqb_neq in Hid.
    destruct (uuid_Parse (cli.String c "id")) as [u|e'] eqn:Hp.
    + split; [done | by intros (e' & _ & [=] & _)].
    + unfold errors.Wrapf. split.
      * intros [= <-]. by exists e'.
      * by intros (e'' & _ & [= <-] & ->).
Qed.

(** The filter that [listCommand] builds holds the deleted-exclusion exactly
    when [--show-deleted] is off, the name predicate exactly for a non-empty
    [--name], and the identifier predicate exactly for a non-empty [--id]
    that parses; it has at most four predicates. *)
Theorem listCommand_filter_predicates
    (uuid_Parse : string -> uuid.UUID + error) (c : cli.Context)
    (f : tunnelstore.Filter)
    (Hf : listCommand_filter uuid_Parse c = inl f) :
  (tunnelstore.notDeleted ∈ f <-> cli.Bool c "show-deleted" = false)
  /\ (forall name, tunnelstore.nameIs name ∈ f
                   <-> name = cli.String c "name" /\ name <> "")
  /\ (forall id, tunnelstore.tunnelIDIs id ∈ f
                 <-> cli.String c "id" <> ""
                     /\ uuid_Parse (cli.String c "id") = inl id)
  /\ length f <= 4.
Proof.
  unfold listCommand_filter, tunnelstore.NewFilter, tunnelstore.NoDeleted,
    tunnelstore.ByName, tunnelstore.ByExistedAt, tunnelstore.ByTunnelID in Hf.
  destruct (cli.Bool c "show-deleted") eqn:Hd;
    destruct (String.eqb (cli.String c "name") "") eqn:Hn;
    [apply String.eqb_eq in Hn | apply String.eqb_neq in Hn
    | apply String.eqb_eq in Hn | apply String.eqb_neq in Hn];
    destruct (cli.Timestamp c "time") as [t|];
    (destruct (String.eqb (cli.String c "id") "") eqn:Hi;
     [apply String.eqb_eq in Hi | apply String.eqb_neq in Hi]);
    try destruct (uuid_Parse (cli.String c "id")) as [u|e] eqn:Hp;
    simpl in Hf; simplify_eq; simpl;
    (split; [set_solver|]); (split; [set_solver|]);
    (split; [|lia]); intros id; set_solver.
Qed.

Lemma listCommand_filter_predicates_witness :
  (tunnelstore.notDeleted ∈ [tunnelstore.notDeleted]
   <-> cli.Bool listWhenContext "show-deleted" = false)
  /\ (forall name, tunnelstore.nameIs name ∈ [tunnelstore.notDeleted]
                   <-> name = cli.String listWhenContext "name" /\ name <> "")
  /\ (forall id, tunnelstore.tunnelIDIs id ∈ [tunnelstore.notDeleted]
                 <-> cli.String listWhenContext "id" <> ""
                     /\ @inr uuid.UUID error (foreign "uuid" "invalid UUID length")
                        = inl id)
  /\ length [tunnelstore.notDeleted] <= 4.
Proof.
  apply (listCommand_filter_predicates
           (fun _ => inr (foreign "uuid" "invalid UUID length")) listWhenContext
           [tunnelstore.notDeleted]).
  reflexivity.
Defined.

Section ListingFacts.
Variable UintSize : N.
Variable uuid_Parse : string -> uuid.UUID + error.
Variable uuid_String : uuid.UUID -> string.
Variable Format_RFC3339 : Time -> string.
Variables SC Stdout : Type.
Variable newSubcommandContext : cli.Context -> SC + error.
Variable sc_list : SC -> tunnelstore.Filter -> list tunnelstore.Tunnel + error.
Variable json_Encode :
  json.Encoder -> list tunnelstore.Tunnel -> Stdout -> Stdout * option error.
Variable yaml_Encode : list tunnelstore.Tunnel -> Stdout -> Stdout * option error.
Variable tabwriter_Flush : list string -> Stdout -> Stdout.
Variable Println : string -> Stdout -> Stdout.

Lemma fmtConnections_range_irrelevant (r1 r2 : ranger) connections show :
  range_ok r1 -> range_ok r2 ->
  fmtConnections UintSize r1 connections show
  = fmtConnections UintSize r2 connections show.
Proof.
  intros H1 H2. rewrite !fmtConnections_unfold. f_equal. f_equal.
  apply sort_Strings_Permutation. by apply range_ok_Permutation.
Qed.

Lemma fmtAndPrintTunnelList_rows (range : ranger) tunnels show stdout :
  fmtAndPrintTunnelList UintSize range uuid_String Format_RFC3339 Stdout
    tabwriter_Flush tunnels show stdout
  = tabwriter_Flush
      (tableHeader
       :: (tunnelRow UintSize range uuid_String Format_RFC3339 show <$> tunnels))
      stdout.
Proof.
  unfold fmtAndPrintTunnelList. cbv zeta. f_equal.
  by rewrite (foldl_snoc_fmap
                (tunnelRow UintSize range uuid_String Format_RFC3339 show)).
Qed.

(** The table has the header line first and then one row per tunnel, in the
    order the directory service returned them; all lines are handed to the
    tab writer, which is flushed once. *)
Theorem fmtAndPrintTunnelList_header_and_rows (range : ranger)
    (tunnels : list tunnelstore.Tunnel) (show : bool) (stdout : Stdout) :
  exists lines,
    fmtAndPrintTunnelList UintSize range uuid_String Format_RFC3339 Stdout
      tabwriter_Flush tunnels show stdout
    = tabwriter_Flush lines stdout
    /\ length lines = S (length tunnels)
    /\ lines !! 0 = Some tableHeader
    /\ forall i t, tunnels !! i = Some t ->
         lines !! S i
         = Some (tunnelRow UintSize range uuid_String Format_RFC3339 show t).
Proof.
  eexists. split; [apply fmtAndPrintTunnelList_rows|].
  split; [simpl; by rewrite length_fmap|]. split; [done|].
  intros i t Ht. simpl. by rewrite list_lookup_fmap, Ht.
Qed.

(** What the list command prints does not depend on the order in which Go
    visits the map of counts: with any two orders the command gives the same
    output and the same error. *)
Theorem listCommand_range_irrelevant (r1 r2 : ranger) (c : cli.Context)
    (stdout : Stdout) (H1 : range_ok r1) (H2 : range_ok r2) :
  listCommand UintSize r1 uuid_Parse uuid_String Format_RFC3339 SC Stdout
    newSubcommandContext sc_list json_Encode yaml_Encode tabwriter_Flush
    Println c stdout
  = listCommand UintSize r2 uuid_Parse uuid_String Format_RFC3339 SC Stdout
      newSubcommandContext sc_list json_Encode yaml_Encode tabwriter_Flush
      Println c stdout.
Proof.
  unfold listCommand.
  destruct (newSubcommandContext c) as [sc|e]; [|done].
  destruct (listCommand_filter uuid_Parse c) as [f|e]; [|done].
  destruct (sc_list sc f) as [tunnels|e]; [|done].
  cbv zeta. destruct (negb _); [done|]. destruct (0 <? length tunnels)%nat; [|done].
  rewrite !fmtAndPrintTunnelList_rows. do 3 f_equal.
  apply list_fmap_ext. intros i t _. unfold tunnelRow.
  by rewrite (fmtConnections_range_irrelevant r1 r2).
Qed.

(** The list command prints nothing unless the listing succeeded: if its
    output differs from what was there before, the context was set up, the
    filter was built and the directory service returned the tunnels. *)
Theorem listCommand_prints_only_after_listing (range : ranger)
    (c : cli.Context) (stdout : Stdout)
    (Hout : fst (listCommand UintSize range uuid_Parse uuid_String
                   Format_RFC3339 SC Stdout newSubcommandContext sc_list
                   json_Encode yaml_Encode tabwriter_Flush Println c stdout)
            <> stdout) :
  exists sc f tunnels,
    newSubcommandContext c = inl sc
    /\ listCommand_filter uuid_Parse c = inl f
    /\ sc_list sc f = inl tunnels.
Proof.
  unfold listCommand in Hout.
  destruct (newSubcommandContext c) as [sc|e]; [|by simpl in Hout].
  destruct (listCommand_filter uuid_Parse c) as [f|e]; [|by simpl in Hout].
  destruct (sc_list sc f) as [tunnels|e] eqn:Hl; [|by simpl in Hout].
  by exists sc, f, tunnels.
Qed.

(** A non-empty [--id] that is not a UUID is refused before the directory
    service is asked: whatever the service and the printers would do, the
    command returns the parse error, wrapped with the offending value, and
    prints nothing. *)
Theorem listCommand_invalid_id (range : ranger) (c : cli.Context)
    (stdout : Stdout) (sc : SC) (e : error)
    (Hsc : newSubcommandContext c = inl sc)
    (Hid : cli.String c "id" <> "")
    (Hparse : uuid_Parse (cli.String c "id") = inr e) :
  listCommand UintSize range uuid_Parse uuid_String Format_RFC3339 SC Stdout
    newSubcommandContext sc_list json_Encode yaml_Encode tabwriter_Flush
    Println c stdout
  = (stdout,
     Some (withMessage e (cli.String c "id" +:+ " is not a valid tunnel ID"))).
Proof.
  unfold listCommand. rewrite Hsc.
  assert (Hf : listCommand_filter uuid_Parse c
               = inr (withMessage e (cli.String c "id" +:+ " is not a valid tunnel ID")))
    by (apply listCommand_filter_inr; by exists e).
  by rewrite Hf.
Qed.

(** The output format is looked at only after the listing: with an
    [--output] other than json and yaml, a failure of the directory service
    is returned as it is, and after a successful listing the command returns
    the unknown-format error and prints nothing. *)
Theorem listCommand_unknown_format (range : ranger) (c : cli.Context)
    (stdout : Stdout) (sc : SC) (f : tunnelstore.Filter)
    (Hsc : newSubcommandContext c = inl sc)
    (Hf : listCommand_filter uuid_Parse c = inl f)
    (Hfmt : cli.String c "output" <> "" /\ cli.String c "output" <> "json"
            /\ cli.String c "output" <> "yaml") :
  let run := listCommand UintSize range uuid_Parse uuid_String Format_RFC3339
               SC Stdout newSubcommandContext sc_list json_Encode yaml_Encode
               tabwriter_Flush Println c stdout in
  (forall e, sc_list sc f = inr e -> run = (stdout, Some e))
  /\ (forall tunnels, sc_list sc f = inl tunnels ->
        run = (stdout, Some (UnknownFormat (cli.String c "output")))).
Proof.
  destruct Hfmt as (H0 & Hj & Hy).
  unfold listCommand. rewrite Hsc, Hf. split.
  - by intros e ->.
  - intros tunnels ->. cbv zeta. simpl cli.Name.
    apply String.eqb_neq in H0, Hj, Hy.
    unfold renderOutput, UnknownFormat. by rewrite H0, Hj, Hy.
Qed.
End ListingFacts.

Lemma listCommand_range_irrelevant_witness :
  listNothing listWhenContext
  = listCommand 64 range_backwards
      (fun _ => inr (foreign "uuid" "invalid UUID length"))
      (fun _ => "") (fun _ => "") unit (list string)
      (fun _ => inl tt) (fun _ _ => inl [])
      (fun _ _ out => (out, None)) (fun _ out => (out, None))
      (fun lines out => (out ++ lines)%list)
      (fun line out => (out ++ [line])%list)
      listWhenContext [].
Proof.
  apply (listCommand_range_irrelevant 64%N _ _ _ unit (list string) _ _ _ _ _ _
           range_stored range_backwards listWhenContext []
           range_stored_ok range_backwards_ok).
Defined.

Lemma listCommand_prints_only_after_listing_witness :
  exists (sc : unit) f (tunnels : list tunnelstore.Tunnel),
    @inl unit error tt = inl sc
    /\ listCommand_filter (fun _ => inr (foreign "uuid" "invalid UUID length"))
         listWhenContext = inl f
    /\ @inl (list tunnelstore.Tunnel) error [] = inl tunnels.
Proof.
  apply (listCommand_prints_only_after_listing 64%N
           (fun _ => inr (foreign "uuid" "invalid UUID length"))
           (fun _ => "") (fun _ => "") unit (list string)
           (fun _ => inl tt) (fun _ _ => inl [])
           (fun _ _ out => (out, None)) (fun _ out => (out, None))
           (fun lines out => (out ++ lines)%list)
           (fun line out => (out ++ [line])%list)
           range_stored listWhenContext []).
  vm_compute. discriminate.
Defined.

Lemma listCommand_invalid_id_witness :
  listNothing listBadIdContext
  = ([], Some (withMessage (foreign "uuid" "invalid UUID length")
                 ("zzz" +:+ " is not a valid tunnel ID"))).
Proof.
  apply (listCommand_invalid_id 64%N
           (fun _ => inr (foreign "uuid" "invalid UUID length"))
           (fun _ => "") (fun _ => "") unit (list string)
           (fun _ => inl tt) (fun _ _ => inl [])
           (fun _ _ out => (out, None)) (fun _ out => (out, None))
           (fun lines out => (out ++ lines)%list)
           (fun line out => (out ++ [line])%list)
           range_stored listBadIdContext [] tt
           (foreign "uuid" "invalid UUID length")).
  - reflexivity.
  - vm_compute. discriminate.
  - reflexivity.
Defined.

Lemma listCommand_unknown_format_witness :
  (forall e, @inl (list tunnelstore.Tunnel) error [] = inr e ->
             listNothing listXmlContext = ([], Some e))
  /\ (forall tunnels, @inl (list tunnelstore.Tunnel) error [] = inl tunnels ->
        listNothing listXmlContext = ([], Some (UnknownFormat "xml"))).
Proof.
  apply (listCommand_unknown_format 64%N
           (fun _ => inr (foreign "uuid" "invalid UUID length"))
           (fun _ => "") (fun _ => "") unit (list string)
           (fun _ => inl tt) (fun _ _ => inl [])
           (fun _ _ out => (out, None)) (fun _ out => (out, None))
           (fun lines out => (out ++ lines)%list)
           (fun line out => (out ++ [line])%list)
           range_stored listXmlContext [] tt [tunnelstore.notDeleted]).
  - reflexivity.
  - reflexivity.
  - vm_compute. repeat split; discriminate.
Defined.

(** ** Counting connections *)

Lemma total_conns_insert (m : gmap string N) k v :
  (total_conns (<[k:=v]> m) + default 0 (m !! k) = v + total_conns m)%N.
Proof.
  unfold total_conns.
  assert (Hcomm : forall (m' : gmap string N) (j1 j2 : string) (z1 z2 y : N),
             j1 <> j2 -> m' !! j1 = Some z1 -> m' !! j2 = Some z2 ->
             (z1 + (z2 + y) = z2 + (z1 + y))%N) by (intros; lia).
  destruct (m !! k) as [x|] eqn:Hk; simpl.
  - rewrite <- insert_delete_eq.
    rewrite map_fold_insert_L; [|by apply Hcomm | by apply lookup_delete_eq].
    rewrite (map_fold_delete_L _ _ k x m); [lia | by apply Hcomm | done].
  - rewrite map_fold_insert_L; [lia | by apply Hcomm | done].
Qed.

Lemma counted_length_snoc show (connections : list tunnelstore.Connection) x :
  length (filter (fun c => counted show c = true) (connections ++ [x])%list)
  = length (filter (fun c => counted show c = true) connections)
    + (if counted show x then 1 else 0).
Proof.
  rewrite filter_app, length_app, filter_cons, filter_nil.
  destruct (counted show x); by destruct (decide _).
Qed.

(** The counts in the map add up to the number of connections counted: when
    no count can wrap around, every connection that is not pending
    reconnect (or every connection, with the flag) is counted exactly once. *)
Theorem countConnsPerColo_total (UintSize : N)
    (connections : list tunnelstore.Connection) (show : bool)
    (Hlen : (N.of_nat (length connections) < 2 ^ UintSize)%N) :
  total_conns (countConnsPerColo UintSize connections show)
  = N.of_nat (length (filter (fun c => counted show c = true) connections)).
Proof.
  induction connections as [|x connections IH] using rev_ind; [done|].
  rewrite length_app in Hlen. simpl in Hlen.
  rewrite counted_length_snoc. unfold countConnsPerColo in *.
  rewrite foldl_app. simpl. unfold countColo at 1. fold (counted show x).
  destruct (counted show x); [|rewrite Nat.add_0_r; apply IH; lia].
  pose proof (total_conns_insert
                (foldl (countColo UintSize show) ∅ connections)
                (tunnelstore.ColoName x)
                (uint_incr UintSize
                   (default 0%N (foldl (countColo UintSize show) ∅ connections
                                   !! tunnelstore.ColoName x)))) as Hins.
  fold (countConnsPerColo UintSize connections show) in *.
  rewrite countConnsPerColo_default in *.
  pose proof (pop_count_le show connections (tunnelstore.ColoName x)) as Hle.
  rewrite N.mod_small in Hins |- * by lia.
  unfold uint_incr in Hins |- *. rewrite N.mod_small in Hins |- * by lia.
  rewrite IH in Hins by lia. lia.
Qed.

Lemma countConnsPerColo_total_witness :
  total_conns (countConnsPerColo 64 exampleConnections false) = 2%N.
Proof. apply (countConnsPerColo_total 64%N exampleConnections false). reflexivity. Defined.

Lemma pop_count_flag_le connections p :
  (pop_count false connections p <= pop_count true connections p)%N.
Proof.
  unfold pop_count. induction connections as [|c l IH]; [done|].
  rewrite !filter_cons.
  destruct (decide (counted false c = true /\ _)) as [[Hc Hp]|Hn].
  - rewrite decide_True; [simpl; lia|]. split; [|done].
    unfold counted in *. by rewrite orb_true_r.
  - destruct (decide _); simpl; lia.
Qed.

(** Including the recently disconnected connections never drops a point of
    presence and never lowers its count: what is listed without the flag is
    listed with it, with a count at least as large. *)
Theorem countConnsPerColo_flag_monotone (UintSize : N)
    (connections : list tunnelstore.Connection) (p : string) (n : N)
    (Hlen : (N.of_nat (length connections) < 2 ^ UintSize)%N)
    (Hp : countConnsPerColo UintSize connections false !! p = Some n) :
  exists n', countConnsPerColo UintSize connections true !! p = Some n'
             /\ (n <= n')%N.
Proof.
  rewrite countConnsPerColo_lookup in *.
  pose proof (pop_count_flag_le connections p) as Hle.
  pose proof (pop_count_le true connections p) as Hle'.
  destruct (decide (pop_count false connections p = 0%N)); [done|].
  injection Hp as <-. rewrite decide_False by lia.
  eexists. split; [done|]. rewrite !N.mod_small by lia. done.
Qed.

Lemma countConnsPerColo_flag_monotone_witness :
  exists n', countConnsPerColo 64 exampleConnections true !! "LAX" = Some n'
             /\ (2 <= n')%N.
Proof.
  apply (countConnsPerColo_flag_monotone 64%N exampleConnections "LAX" 2%N);
    reflexivity.
Defined.

Lemma pop_count_none_pending connections p :
  Forall (fun c => tunnelstore.IsPendingReconnect c = false) connections ->
  pop_count true connections p = pop_count false connections p.
Proof.
  intros H. unfold pop_count. f_equal. f_equal.
  induction H as [|c l Hc _ IH]; [done|].
  rewrite !filter_cons, IH. unfold counted. rewrite Hc. simpl.
  destruct (decide (true = true /\ _)) as [|Hn]; [done|].
  done.
Qed.

(** When no connection is pending reconnect the flag makes no difference:
    the summary is the same with and without it. *)
Theorem fmtConnections_flag_irrelevant (UintSize : N) (range range' : ranger)
    (connections : list tunnelstore.Connection)
    (Hr : range_ok range) (Hr' : range_ok range')
    (Hnone : Forall (fun c => tunnelstore.IsPendingReconnect c = false) connections) :
  fmtConnections UintSize range connections true
  = fmtConnections UintSize range' connections false.
Proof.
  rewrite !fmtConnections_unfold.
  assert (Hm : countConnsPerColo UintSize connections true
               = countConnsPerColo UintSize connections false).
  { apply map_eq. intros p. rewrite !countConnsPerColo_lookup.
    by rewrite (pop_count_none_pending connections p Hnone). }
  rewrite Hm. f_equal. f_equal.
  apply sort_Strings_Permutation. by apply range_ok_Permutation.
Qed.

Lemma fmtConnections_flag_irrelevant_witness :
  fmtConnections 64 range_stored [conn "LAX" false; conn "AMS" false] true
  = fmtConnections 64 range_backwards [conn "LAX" false; conn "AMS" false] false.
Proof.
  apply (fmtConnections_flag_irrelevant 64%N range_stored range_backwards
           [conn "LAX" false; conn "AMS" false]
           range_stored_ok range_backwards_ok).
  repeat constructor.
Defined.

(** ** Writing credentials *)

Section CredentialFacts.
Variable uuid_String : uuid.UUID -> string.
Variables filepath_Dir filepath_Clean : string -> string.
Variable homedir_Expand : string -> string + error.
Variable json_Marshal : pogs.TunnelAuth -> list Byte.byte + error.
Variables (tunnelID : uuid.UUID) (accountID originCertPath : string).
Variable tunnelSecret : list Byte.byte.

Let write := writeTunnelCredentials uuid_String filepath_Dir filepath_Clean
               homedir_Expand json_Marshal tunnelID accountID originCertPath
               tunnelSecret.
Let path := tunnelFilePath uuid_String filepath_Clean homedir_Expand tunnelID
              (filepath_Dir originCertPath).
Let auth := {| pogs.AccountTag := accountID; pogs.TunnelSecret := tunnelSecret |}.

(** When the path of the credential file cannot be resolved, or the
    credentials cannot be marshalled, nothing is written and nothing is
    logged: the world is returned as it was, with the error (the marshalling
    error wrapped). *)
Theorem writeTunnelCredentials_fails_early (w : World) :
  (forall e, path = inr e -> write w = (w, Some e))
  /\ (forall filePath e, path = inl filePath -> json_Marshal auth = inr e ->
        write w = (w, Some (withMessage e "Unable to marshal tunnel credentials to JSON"))).
Proof.
  subst write path auth. unfold writeTunnelCredentials. split.
  - by intros e ->.
  - by intros filePath e -> ->.
Qed.

(** A successful write stores exactly the marshalled credentials at the
    credential path, leaves every other file as it was, and adds the two
    log lines, the first naming the path. *)
Theorem writeTunnelCredentials_success (w w' : World) (filePath : string)
    (body : list Byte.byte)
    (Hpath : path = inl filePath)
    (Hbody : json_Marshal auth = inl body)
    (Hok : write w = (w', None)) :
  (exists f, os.files (fsys w') !! filePath = Some f /\ os.Data f = body)
  /\ (forall other, other <> filePath ->
        os.files (fsys w') !! other = os.files (fsys w) !! other)
  /\ logged w' = (logged w ++ credentialLogLines filePath)%list.
Proof.
  subst write path auth. unfold writeTunnelCredentials in Hok.
  rewrite Hpath, Hbody in Hok.
  unfold os.WriteFile, Infof in Hok; cbn [fsys logged] in Hok.
  destruct (os.faults (fsys w) filePath) as [[e|n e]|]; try discriminate.
  injection Hok as <-. cbn [fsys logged os.with_file os.files].
  split; [eexists; split; [apply lookup_insert_eq | done]|].
  split; [intros other Hne; by rewrite lookup_insert_ne|].
  by rewrite <- app_assoc.
Qed.

(** The log lines are written before the file is: when the write fails they
    are in the log all the same, and the error of the write is returned as
    it is.  If the file could not be opened the files are untouched; if the
    write stopped after [n] bytes the file is left holding the first [n]
    bytes of the credentials: it is not removed. *)
Theorem writeTunnelCredentials_write_fails (w : World) (filePath : string)
    (body : list Byte.byte)
    (Hpath : path = inl filePath)
    (Hbody : json_Marshal auth = inl body) :
  (forall e, os.faults (fsys w) filePath = Some (os.openFails e) ->
     write w = ({| fsys := fsys w;
                   logged := (logged w ++ credentialLogLines filePath)%list |},
                Some e))
  /\ (forall n e, os.faults (fsys w) filePath = Some (os.writeFails n e) ->
        snd (write w) = Some e
        /\ logged (fst (write w)) = (logged w ++ credentialLogLines filePath)%list
        /\ exists f, os.files (fsys (fst (write w))) !! filePath = Some f
                     /\ os.Data f = take n body).
Proof.
  subst write path auth. unfold writeTunnelCredentials.
  rewrite Hpath, Hbody.
  unfold os.WriteFile, Infof; cbn [fsys logged]. split.
  - intros e ->. by rewrite <- app_assoc.
  - intros n e ->. cbn [fst snd fsys logged os.with_file os.files].
    split; [done|]. split; [by rewrite <- app_assoc|].
    eexists; split; [apply lookup_insert_eq | done].
Qed.
End CredentialFacts.

Lemma writeTunnelCredentials_success_witness :
  (exists f, os.files (fsys (fst writeFresh)) !! credPath = Some f
             /\ os.Data f = [])
  /\ (forall other, other <> credPath ->
        os.files (fsys (fst writeFresh)) !! other
        = os.files (fsys freshWorld) !! other)
  /\ logged (fst writeFresh) = (logged freshWorld ++ credentialLogLines credPath)%list.
Proof.
  apply (writeTunnelCredentials_success
           (fun _ => "6ff42ae2-765d-4adf-8112-31c55c1551ef")
           (fun _ => "/home/user/.cloudflared") (fun p => p) (fun p => inl p)
           (fun _ => inl [])
           [] "account" "/home/user/.cloudflared/cert.pem"
           (replicate 32 Byte.x00) freshWorld (fst writeFresh) credPath []);
    reflexivity.
Defined.

Lemma writeTunnelCredentials_write_fails_witness :
  snd writeShort = Some (foreign "os" "no space left on device")
  /\ logged (fst writeShort) = (logged shortWriteWorld ++ credentialLogLines credPath)%list
  /\ exists f, os.files (fsys (fst writeShort)) !! credPath = Some f
               /\ os.Data f = take 3 [Byte.x7b; Byte.x22; Byte.x41; Byte.x22; Byte.x7d].
Proof.
  apply (proj2 (writeTunnelCredentials_write_fails
           (fun _ => "6ff42ae2-765d-4adf-8112-31c55c1551ef")
           (fun _ => "/home/user/.cloudflared") (fun p => p) (fun p => inl p)
           (fun _ => inl [Byte.x7b; Byte.x22; Byte.x41; Byte.x22; Byte.x7d])
           [] "account" "/home/user/.cloudflared/cert.pem"
           (replicate 32 Byte.x00) shortWriteWorld credPath
           [Byte.x7b; Byte.x22; Byte.x41; Byte.x22; Byte.x7d]
           eq_refl eq_refl) 3 (foreign "os" "no space left on device")).
  reflexivity.
Defined.

(** ** The route command *)

Lemma dnsRouteFromArg_inl ToASCII c r :
  dnsRouteFromArg ToASCII c = inl r ->
  cli.NArg c = 3 /\ r = tunnelstore.DNSRoute (cli.Get c 2) /\ validated ToASCII r.
Proof.
  unfold dnsRouteFromArg. destruct (cli.NArg c =? 3)%nat eqn:Hn; [|done].
  apply Nat.eqb_eq in Hn. simpl.
  destruct (String.eqb (cli.Get c 2) "") eqn:He; [done|].
  apply String.eqb_neq in He.
  destruct (validateHostname ToASCII (cli.Get c 2)) eqn:Hv; [|done].
  simpl. by intros [= <-].
Qed.

Lemma lbRouteFromArg_inl ToASCII c r :
  lbRouteFromArg ToASCII c = inl r ->
  cli.NArg c = 4 /\ r = tunnelstore.LBRoute (cli.Get c 2) (cli.Get c 3)
  /\ validated ToASCII r.
Proof.
  unfold lbRouteFromArg. destruct (cli.NArg c =? 4)%nat eqn:Hn; [|done].
  apply Nat.eqb_eq in Hn. simpl.
  destruct (String.eqb (cli.Get c 2) "") eqn:He; [done|].
  apply String.eqb_neq in He.
  destruct (validateHostname ToASCII (cli.Get c 2)) eqn:Hv; [|done]. simpl.
  destruct (String.eqb (cli.Get c 3) "") eqn:He'; [done|].
  apply String.eqb_neq in He'.
  destruct (validateName (cli.Get c 3)) eqn:Hv'; [|done].
  simpl. by intros [= <-].
Qed.

Section RouteFacts.
Variable ToASCII : idna.Converter.
Variables SC RouteResult Log : Type.
Variable newSubcommandContext : cli.Context -> SC + error.
Variable sc_findID : SC -> string -> uuid.UUID + error.
Variable SuccessSummary : RouteResult -> string.
Variable sc_logger_Infof : SC -> string -> Log -> Log.

(** Every route the route command submits has passed the checks of its
    constructor: the command behaves the same with any two directory
    services that agree on validated routes, whatever they would do with
    an unchecked one. *)
Theorem routeCommand_submits_validated
    (sc_route sc_route' : SC -> uuid.UUID -> tunnelstore.Route -> RouteResult + error)
    (c : cli.Context) (log : Log)
    (Hagree : forall sc id r, validated ToASCII r ->
                sc_route sc id r = sc_route' sc id r) :
  routeCommand ToASCII SC RouteResult Log newSubcommandContext sc_findID
    sc_route SuccessSummary sc_logger_Infof c log
  = routeCommand ToASCII SC RouteResult Log newSubcommandContext sc_findID
      sc_route' SuccessSummary sc_logger_Infof c log.
Proof.
  unfold routeCommand. destruct (cli.NArg c <? 2)%nat; [done|].
  destruct (newSubcommandContext c) as [sc|e]; [|done]. cbv zeta.
  destruct (String.eqb (cli_First c) "dns").
  - destruct (sc_findID sc (cli.Get c 1)) as [id|e]; [|done].
    destruct (dnsRouteFromArg ToASCII c) as [r|e] eqn:Hr; [|done].
    apply dnsRouteFromArg_inl in Hr as (_ & _ & Hv). by rewrite (Hagree sc id r Hv).
  - destruct (String.eqb (cli_First c) "lb"); [|done].
    destruct (sc_findID sc (cli.Get c 1)) as [id|e]; [|done].
    destruct (lbRouteFromArg ToASCII c) as [r|e] eqn:Hr; [|done].
    apply lbRouteFromArg_inl in Hr as (_ & _ & Hv). by rewrite (Hagree sc id r Hv).
Qed.

Variable sc_route : SC -> uuid.UUID -> tunnelstore.Route -> RouteResult + error.

Let route := routeCommand ToASCII SC RouteResult Log newSubcommandContext
               sc_findID sc_route SuccessSummary sc_logger_Infof.

(** With fewer than two arguments the route command returns its usage error
    without setting up the context; with a route type other than [dns] and
    [lb] it returns the usage error naming that type, without looking up the
    tunnel or submitting anything.  In both cases nothing is logged. *)
Theorem routeCommand_usage (c : cli.Context) (log : Log) :
  (cli.NArg c < 2 ->
   exists msg, route c log = (log, Some (usageError msg)))
  /\ (forall sc, 2 <= cli.NArg c -> newSubcommandContext c = inl sc ->
        cli_First c <> "dns" -> cli_First c <> "lb" ->
        route c log
        = (log, Some (usageError
                        (cli_First c +:+ " is not a recognized route type. Supported route types are dns and lb")))).
Proof.
  subst route. unfold routeCommand. split.
  - intros H%Nat.ltb_lt. rewrite H. by eexists.
  - intros sc H%Nat.ltb_ge Hsc Hd%String.eqb_neq Hl%String.eqb_neq.
    by rewrite H, Hsc, Hd, Hl.
Qed.

(** The tunnel is looked up before the route is checked: for [dns] and
    [lb], when the lookup fails its error is returned, whatever the
    remaining arguments are, and nothing is submitted or logged. *)
Theorem routeCommand_lookup_first (c : cli.Context) (log : Log) (sc : SC)
    (e : error)
    (Hn : 2 <= cli.NArg c)
    (Hsc : newSubcommandContext c = inl sc)
    (Htype : cli_First c = "dns" \/ cli_First c = "lb")
    (Hfind : sc_findID sc (cli.Get c 1) = inr e) :
  route c log = (log, Some e).
Proof.
  subst route. unfold routeCommand. apply Nat.ltb_ge in Hn. rewrite Hn, Hsc.
  cbv zeta. destruct Htype as [-> | ->]; simpl; by rewrite Hfind.
Qed.

(** For [route dns TUNNEL HOSTNAME] with a tunnel that is found and a
    hostname that is not empty and valid, the DNS route carrying that
    hostname is submitted for the tunnel found; the summary is logged when
    the submission succeeds, and nothing is logged when it fails. *)
Theorem routeCommand_dns (tunnel hostname : string) (log : Log) (sc : SC)
    (id : uuid.UUID)
    (Hsc : newSubcommandContext (dnsArgs tunnel hostname) = inl sc)
    (Hfind : sc_findID sc tunnel = inl id)
    (Hne : hostname <> "")
    (Hvalid : validateHostname ToASCII hostname = true) :
  route (dnsArgs tunnel hostname) log
  = match sc_route sc id (tunnelstore.DNSRoute hostname) with
    | inr err => (log, Some err)
    | inl res => (sc_logger_Infof sc (SuccessSummary res) log, None)
    end.
Proof.
  subst route. unfold routeCommand. rewrite Hsc.
  unfold cli_First, cli.Get, cli.NArg, dnsRouteFromArg, cli.Get, cli.NArg.
  simpl. rewrite Hfind.
  apply String.eqb_neq in Hne. by rewrite Hne, Hvalid.
Qed.
End RouteFacts.

Lemma submitValidated_agrees sc id r :
  validated idna.ToASCII_ascii r -> submitAll sc id r = submitValidated sc id r.
Proof.
  destruct r as [h|n p]; simpl.
  - intros [Hne%String.eqb_neq Hv]. by rewrite Hne, Hv.
  - intros (Hn%String.eqb_neq & Hv & Hp%String.eqb_neq & Hv'). by rewrite Hn, Hv, Hp, Hv'.
Qed.

Lemma routeCommand_submits_validated_witness :
  routeWith submitAll (fun _ _ => inl []) (routeArgs ["dns"; "t"; "bad host"])
  = routeWith submitValidated (fun _ _ => inl []) (routeArgs ["dns"; "t"; "bad host"]).
Proof.
  apply (routeCommand_submits_validated idna.ToASCII_ascii unit string
           (list string) (fun _ => inl tt) (fun _ _ => inl [])
           (fun summary => summary) (fun _ line log => (log ++ [line])%list)
           submitAll submitValidated (routeArgs ["dns"; "t"; "bad host"]) []
           submitValidated_agrees).
Defined.

Lemma routeCommand_lookup_first_witness :
  routeWith submitAll (fun _ _ => inr (foreign "tunnelstore" "tunnel not found"))
    (routeArgs ["dns"; "t"; "bad host"])
  = ([], Some (foreign "tunnelstore" "tunnel not found")).
Proof.
  apply (routeCommand_lookup_first idna.ToASCII_ascii unit string (list string)
           (fun _ => inl tt)
           (fun _ _ => inr (foreign "tunnelstore" "tunnel not found"))
           (fun summary => summary) (fun _ line log => (log ++ [line])%list)
           submitAll (routeArgs ["dns"; "t"; "bad host"]) [] tt
           (foreign "tunnelstore" "tunnel not found")).
  - unfold cli.NArg. simpl. lia.
  - reflexivity.
  - left. reflexivity.
  - reflexivity.
Defined.

Lemma routeCommand_dns_witness :
  routeWith submitAll (fun _ _ => inl []) (dnsArgs "t" "example.com")
  = (["ok"], None).
Proof.
  apply (routeCommand_dns idna.ToASCII_ascii unit string (list string)
           (fun _ => inl tt) (fun _ _ => inl [])
           (fun summary => summary) (fun _ line log => (log ++ [line])%list)
           submitAll "t" "example.com" [] tt []).
  - reflexivity.
  - reflexivity.
  - discriminate.
  - reflexivity.
Defined.

(** ** The create, delete, run and cleanup commands *)

Section CommandFacts.
Variable SC : Type.
Variable newSubcommandContext : cli.Context -> SC + error.
Variable sc_create : SC -> string -> tunnelstore.Tunnel + error.
Variable sc_findID : SC -> string -> uuid.UUID + error.
Variable sc_findIDs : SC -> list string -> list uuid.UUID + error.
Variable sc_delete : SC -> list uuid.UUID -> option error.
Variable sc_run : SC -> uuid.UUID -> option error.
Variable sc_cleanupConnections : SC -> list uuid.UUID -> option error.

Let create := createCommand SC newSubcommandContext sc_create.
Let delete := deleteCommand SC newSubcommandContext sc_findIDs sc_delete.
Let run := runCommand SC newSubcommandContext sc_findID sc_run.
Let cleanup := cleanupCommand SC newSubcommandContext sc_findIDs sc_cleanupConnections.

(** With the wrong number of arguments no command reaches the directory
    service: create and run with other than one argument, delete and cleanup
    with none, return a usage error whatever the service would answer.
    Cleanup does so even when the context cannot be set up; the other three
    set up the context first and return its error instead (create wraps
    it). *)
Theorem commands_argument_guards (c : cli.Context) :
  (forall sc, newSubcommandContext c = inl sc ->
     (cli.NArg c <> 1 -> exists msg, create c = Some (usageError msg))
     /\ (cli.NArg c = 0 -> exists msg, delete c = Some (usageError msg))
     /\ (cli.NArg c <> 1 -> exists msg, run c = Some (usageError msg)))
  /\ (cli.NArg c = 0 -> exists msg, cleanup c = Some (usageError msg))
  /\ (forall e, newSubcommandContext c = inr e ->
        create c = Some (withMessage e "error setting up logger")
        /\ delete c = Some e
        /\ run c = Some e
        /\ (1 <= cli.NArg c -> cleanup c = Some e)).
Proof.
  subst create delete run cleanup.
  unfold createCommand, deleteCommand, runCommand, cleanupCommand.
  split; [|split].
  - intros sc ->. split; [|split].
    + intros H%Nat.eqb_neq. rewrite H. by eexists.
    + intros ->. by eexists.
    + intros H%Nat.eqb_neq. rewrite H. by eexists.
  - intros ->. by eexists.
  - intros e ->. repeat split. intros H%Nat.ltb_ge. by rewrite H.
Qed.

(** When a tunnel cannot be found nothing is deleted, cleaned up or run:
    delete and cleanup return the lookup error as it is, run returns it
    wrapped, whatever the operation itself would have done. *)
Theorem commands_lookup_failure (c : cli.Context) (sc : SC) (e : error) :
  newSubcommandContext c = inl sc ->
  (1 <= cli.NArg c -> sc_findIDs sc (cli.args c) = inr e ->
   delete c = Some e /\ cleanup c = Some e)
  /\ (cli.NArg c = 1 -> sc_findID sc (cli.Get c 0) = inr e ->
      run c = Some (withMessage e "error parsing tunnel ID")).
Proof.
  subst create delete run cleanup.
  unfold createCommand, deleteCommand, runCommand, cleanupCommand,
    cli_Slice, cli_First.
  intros ->. split.
  - intros H%Nat.ltb_ge ->. by rewrite H.
  - intros -> ->. done.
Qed.

(** A created tunnel is reported as success and a failed creation as the
    wrapped error of the service; the name handed to the service is the
    single argument. *)
Lemma createCommand_result (name : string) (sc : SC) :
  newSubcommandContext {| cli.flagSet := ∅; cli.args := [name] |} = inl sc ->
  create {| cli.flagSet := ∅; cli.args := [name] |}
  = match sc_create sc name with
    | inr err => Some (withMessage err "failed to create tunnel")
    | inl _ => None
    end.
Proof. subst create. unfold createCommand. by intros ->. Qed.
End CommandFacts.

Lemma commands_lookup_failure_witness :
  (1 <= cli.NArg (routeArgs ["t"]) ->
   @inr (list uuid.UUID) error (foreign "tunnelstore" "tunnel not found")
   = inr (foreign "tunnelstore" "tunnel not found") ->
   deleteCommand unit (fun _ => inl tt)
     (fun _ _ => inr (foreign "tunnelstore" "tunnel not found"))
     (fun _ _ => None) (routeArgs ["t"])
   = Some (foreign "tunnelstore" "tunnel not found")
   /\ cleanupCommand unit (fun _ => inl tt)
        (fun _ _ => inr (foreign "tunnelstore" "tunnel not found"))
        (fun _ _ => None) (routeArgs ["t"])
      = Some (foreign "tunnelstore" "tunnel not found"))
  /\ (cli.NArg (routeArgs ["t"]) = 1 ->
      @inr uuid.UUID error (foreign "tunnelstore" "tunnel not found")
      = inr (foreign "tunnelstore" "tunnel not found") ->
      runCommand unit (fun _ => inl tt)
        (fun _ _ => inr (foreign "tunnelstore" "tunnel not found"))
        (fun _ _ => None) (routeArgs ["t"])
      = Some (withMessage (foreign "tunnelstore" "tunnel not found")
                "error parsing tunnel ID")).
Proof.
  apply (commands_lookup_failure unit (fun _ => inl tt)
           (fun _ _ => inr (foreign "tunnelstore" "tunnel not found"))
           (fun _ _ => inr (foreign "tunnelstore" "tunnel not found"))
           (fun _ _ => None) (fun _ _ => None) (fun _ _ => None)
           (routeArgs ["t"]) tt (foreign "tunnelstore" "tunnel not found")).
  reflexivity.
Defined.

(** ** Credential file check *)

Lemma validFilePath_true (os_Stat : string -> bool + error) (path : string) :
  validFilePath os_Stat path = true <-> os_Stat path = inl false.
Proof.
  unfold validFilePath. destruct (os_Stat path) as [[]|e]; simpl; split;
    congruence.
Qed.
